(** * Dronefly generic text formatters

    A shallow embedding of [dronefly/core/formatters/generic.py] and the
    properties of its Markdown formatters.

    Python values are modelled as follows.
    - A [str] is the list of its Unicode code points ([list N]), so that
      [len] is [length] also for text outside ASCII (the warning glyph of
      the inactive-taxon marker is one code point).
    - An [int] is a [Z].
    - A raised exception is the [Raise] case of [result]; a function that
      cannot raise returns its value directly.
    - A [dict] is a [gmap]; [d.get(k)] is [d !! k] with an absent key read as
      [None]. *)

From Stdlib Require Import ZArith Lia Ascii String.
From Stdlib Require DecimalFacts DecimalPos.
From stdpp Require Import base option list gmap.

Local Open Scope Z_scope.

(** ** Python strings *)

Abbreviation char := N (only parsing).
Abbreviation str := (list N) (only parsing).

(** [lit s] is the Python literal whose characters are the (ASCII) characters
    of [s]. *)
Definition lit (s : string) : str :=
  N_of_ascii <$> list_ascii_of_string s.

Definition chr (a : ascii) : char := N_of_ascii a.

Arguments lit : simpl never.
Arguments chr : simpl never.

(** [len(s)], as a Python [int]. *)
Definition len {A} (l : list A) : Z := Z.of_nat (length l).

(** Truthiness of a [str]: only the empty string is falsy. *)
Definition str_truthy (s : str) : bool :=
  match s with [] => false | _ :: _ => true end.

(** Truthiness of a value that is either [None] or a [str]. *)
Definition opt_truthy (o : option str) : bool :=
  match o with Some s => str_truthy s | None => false end.

(** [s.split(sep)] for a separator of one character: empty fields are kept,
    and the result is never empty. *)
Fixpoint split (sep : char) (s : str) : list str :=
  match s with
  | [] => [[]]
  | c :: s' =>
      if (c =? sep)%N then [] :: split sep s'
      else match split sep s' with
           | [] => [[c]]
           | w :: ws => (c :: w) :: ws
           end
  end.

(** [str.isspace] on one code point: the characters that [s.split()] without
    an argument treats as separators. *)
Definition is_space (c : char) : bool :=
  ((9 <=? c) && (c <=? 13) || (28 <=? c) && (c <=? 32)
   || (c =? 133) || (c =? 160) || (c =? 5760)
   || (8192 <=? c) && (c <=? 8202) || (c =? 8232) || (c =? 8233)
   || (c =? 8239) || (c =? 8287) || (c =? 12288))%N.

(** [s.split()]: the maximal runs of characters that are not whitespace.
    [cur] is the word read so far. *)
Fixpoint split_ws_from (cur : str) (s : str) : list str :=
  match s with
  | [] => if str_truthy cur then [cur] else []
  | c :: s' =>
      if is_space c then
        if str_truthy cur then cur :: split_ws_from [] s'
        else split_ws_from [] s'
      else split_ws_from (cur ++ [c]) s'
  end.

Definition split_ws (s : str) : list str := split_ws_from [] s.

(** [delimiter.join(items)]. *)
Fixpoint join (delimiter : str) (items : list str) : str :=
  match items with
  | [] => []
  | [x] => x
  | x :: rest => x ++ delimiter ++ join delimiter rest
  end.

(** Decimal digits of a number, most significant first. *)
Fixpoint uint_digits (d : Decimal.uint) : str :=
  match d with
  | Decimal.Nil => []
  | Decimal.D0 d => chr "0" :: uint_digits d
  | Decimal.D1 d => chr "1" :: uint_digits d
  | Decimal.D2 d => chr "2" :: uint_digits d
  | Decimal.D3 d => chr "3" :: uint_digits d
  | Decimal.D4 d => chr "4" :: uint_digits d
  | Decimal.D5 d => chr "5" :: uint_digits d
  | Decimal.D6 d => chr "6" :: uint_digits d
  | Decimal.D7 d => chr "7" :: uint_digits d
  | Decimal.D8 d => chr "8" :: uint_digits d
  | Decimal.D9 d => chr "9" :: uint_digits d
  end.

(** [str(n)] for a natural number. *)
Definition nat_digits (n : N) : str := uint_digits (N.to_uint n).

(** ["%d" % n] and [f"{n}"] for an [int]. *)
Definition str_of_int (n : Z) : str :=
  if n <? 0 then chr "-" :: nat_digits (Z.abs_N n) else nat_digits (Z.abs_N n).

(** Groups of three digits from the right, separated by commas; [rds] holds
    the digits least significant first. *)
Fixpoint group3_rev (fuel : nat) (rds : str) : str :=
  match fuel, rds with
  | S fuel', a :: b :: c :: (_ :: _) as rest =>
      a :: b :: c :: chr "," :: group3_rev fuel' rest
  | _, _ => rds
  end.

(** [f"{n:,}"] for an [int]. *)
Definition str_of_int_grouped (n : Z) : str :=
  let ds := nat_digits (Z.abs_N n) in
  let grouped := rev (group3_rev (length ds) (rev ds)) in
  if n <? 0 then chr "-" :: grouped else grouped.

(** ** Exceptions *)

Inductive exn : Set :=
| KeyError
| IndexError
| TypeError
| ValueError
| AttributeError
| UnboundLocalError.

Inductive result (A : Type) : Type :=
| Ok (a : A)
| Raise (e : exn).
Arguments Ok {A} a.
Arguments Raise {A} e.

(** Sequencing: an exception raised by [m] ends the computation. *)
Definition bind {A B} (m : result A) (k : A → result B) : result B :=
  match m with
  | Ok a => k a
  | Raise e => Raise e
  end.

Notation "'let*' x ':=' m 'in' k" := (bind m (λ x, k))
  (at level 10, x name, m at level 100, k at level 200, only parsing).
Notation "'let*' ' pat ':=' m 'in' k" :=
  (bind m (λ x, match x with pat => k end))
  (at level 10, pat pattern, m at level 100, k at level 200, only parsing).

(** [d[k]] on a dict: a missing key raises [KeyError]. *)
Definition getitem `{Countable K} {V} (d : gmap K V) (k : K) : result V :=
  match d !! k with
  | Some v => Ok v
  | None => Raise KeyError
  end.

(** [l[0]] on a list. *)
Definition first {A} (l : list A) : result A :=
  match l with
  | x :: _ => Ok x
  | [] => Raise IndexError
  end.

(** ** The [%] operator with one [str] argument

    [percent fmt (Some arg)] is [fmt % arg]. The conversions modelled are
    [%s], which consumes the argument, and [%%]; a format with any other
    conversion is outside this model and is given the error of an unknown
    conversion character. The argument still pending is [Some arg], a
    consumed one is [None]. *)
Fixpoint percent (fmt : str) (arg : option str) : result str :=
  match fmt with
  | [] =>
      match arg with
      | None => Ok []
      | Some _ => Raise TypeError (* not all arguments converted *)
      end
  | c :: rest =>
      if (c =? chr "%")%N then
        match rest with
        | d :: rest' =>
            if (d =? chr "s")%N then
              match arg with
              | Some a => let* out := percent rest' None in Ok (a ++ out)
              | None => Raise TypeError (* not enough arguments *)
              end
            else if (d =? chr "%")%N then
              let* out := percent rest' arg in Ok (chr "%" :: out)
            else Raise ValueError
        | [] => Raise ValueError (* incomplete format *)
        end
      else let* out := percent rest arg in Ok (c :: out)
  end.

(** ** [format_link] *)

Definition format_link (link_text : str) (url : option str) : str :=
  match url with
  | Some u =>
      if str_truthy u then lit "[" ++ link_text ++ lit "](" ++ u ++ lit ")"
      else link_text
  | None => link_text
  end.

(** ** [format_quality_grade] *)

(** The values an options mapping holds. *)
Inductive pyval : Type :=
| PNone
| PBool (b : bool)
| PStr (s : str).

#[global] Instance pyval_eq_dec : EqDecision pyval.
Proof. solve_decision. Defined.

Definition truthy (v : pyval) : bool :=
  match v with
  | PNone => false
  | PBool b => b
  | PStr s => str_truthy s
  end.

(** [options.get(key)]. *)
Definition dict_get (options : gmap str pyval) (key : str) : pyval :=
  default PNone (options !! key).

(** Reading a local variable that may not have been assigned. *)
Definition read_local {A} (v : option A) : result A :=
  match v with
  | Some a => Ok a
  | None => Raise UnboundLocalError
  end.

(** The tokens of [quality_grade]: the value, or the empty string in place
    of a falsy one, split at the commas. A truthy value that is not a [str]
    has no [split]. *)
Definition quality_grade_tokens (options : gmap str pyval)
  : result (list str) :=
  match dict_get options (lit "quality_grade") with
  | PStr s => Ok (split (chr ",") s)
  | PNone | PBool false => Ok (split (chr ",") [])
  | PBool true => Raise AttributeError
  end.

Definition format_quality_grade (options : gmap str pyval)
  : result (list str) :=
  let adjectives : list str := [] in
  let* quality_grade := quality_grade_tokens options in
  let verifiable := dict_get options (lit "verifiable") in
  (* [research] and [needsid] are assigned only when [any] is not a token *)
  let '(research, needsid) :=
    if bool_decide (lit "any" ∈ quality_grade) then (None, None)
    else (Some (bool_decide (lit "research" ∈ quality_grade)),
          Some (bool_decide (lit "needs_id" ∈ quality_grade))) in
  let '(research, needsid) :=
    if truthy verifiable then
      if bool_decide (verifiable ∈ [PStr (lit "true"); PStr []])
      then (Some true, Some true)
      else (research, needsid)
    else (research, needsid) in
  if bool_decide (verifiable = PStr (lit "false")) then
    Ok (adjectives ++ [lit "*not Verifiable*"])
  else
    let* r := read_local research in
    let* both := (if r then read_local needsid else Ok false) in
    if both then Ok (adjectives ++ [lit "*Verifiable*"])
    else
      let* r := read_local research in
      let adjectives :=
        if r then adjectives ++ [lit "*Research Grade*"] else adjectives in
      let* n := read_local needsid in
      let adjectives :=
        if n then adjectives ++ [lit "*Needs ID*"] else adjectives in
      Ok adjectives.

(** ** Constants of the package

    [dronefly.core.constants] and [dronefly.core.formatters.constants] are
    imported by the formatters; the functions below take their tables as
    parameters. *)
Class Constants := {
  (** rank name to rank level *)
  RANK_LEVELS : gmap str Z;
  (** rank name to the abbreviation inserted in a trinomial *)
  TRINOMIAL_ABBR : gmap str str;
  (** the ranks shown in bold in a hierarchy *)
  TAXON_PRIMARY_RANKS : list str;
  WWW_BASE_URL : str;
}.

(** ** The [inflect] engine [p]

    [inflect] is a third-party package. [number_to_words] and [a] are taken
    as they are; [plural_noun] is the plural that [plural] forms of a noun
    when the count does not stand for one. *)
Class Inflect := {
  number_to_words : str → str;
  a : str → str;
  plural_noun : str → str;
}.

(** The counts that [inflect] reads as one; every other count, as text, is
    read as more than one. *)
Definition pl_count_one : list str :=
  [lit "1"; lit "a"; lit "an"; lit "one"; lit "each"; lit "every";
   lit "this"; lit "that"].

(** [p.plural(text, count)] for a noun and a count given as text. *)
Definition plural `{Inflect} (text count : str) : str :=
  if bool_decide (count ∈ pl_count_one) then text else plural_noun text.

(** ** Records of [pyinaturalist] *)

(** One entry of [taxon.names]; [name.get("locale")] and [name.get("name")]
    are [None] when the entry lacks the key. *)
Record TaxonName := {
  tn_locale : option str;
  tn_name : option str;
  tn_is_valid : bool;
}.

Module Taxon.
Record t := {
  id : Z;
  name : str;
  rank : str;
  names : list TaxonName;
  preferred_common_name : option str;
  matched_term : option str;
  is_active : bool;
  observations_count : Z;
}.
End Taxon.

Module ConservationStatus.
Record t := {
  display_name : str;
  authority : str;
  url : option str;
}.
End ConservationStatus.

(** ** [format_taxon_name] *)

Definition upper (c : char) : char :=
  if ((97 <=? c) && (c <=? 122))%N then (c - 32)%N else c.

Definition lower (c : char) : char :=
  if ((65 <=? c) && (c <=? 90))%N then (c + 32)%N else c.

(** [s.capitalize()]; letters outside ASCII are left as they are. *)
Definition capitalize (s : str) : str :=
  match s with
  | [] => []
  | c :: rest => upper c :: (lower <$> rest)
  end.

(** [f"*{name}*"]. *)
Definition italic (name : str) : str := lit "*" ++ name ++ lit "*".

(** [" \N{HEAVY EXCLAMATION MARK SYMBOL} Inactive Taxon"]. *)
Definition inactive_marker : str :=
  lit " " ++ [10071%N] ++ lit " Inactive Taxon".

(** [next(iter([name for name in taxon.names if name.get("locale") == lang]),
    None)]. *)
Definition name_for_locale (names : list TaxonName) (lang : str)
  : option TaxonName :=
  head (filter (λ entry, tn_locale entry = Some lang) names).

(** The common name (or matched term) shown in parentheses, if any: the first
    part of [format_taxon_name], up to [name = taxon.name]. *)
Definition common_name (taxon : Taxon.t)
    (with_term hierarchy with_common : bool) (lang : option str)
  : option str :=
  if with_common then
    let preferred_common_name : option str :=
      if opt_truthy lang && bool_decide (Taxon.names taxon ≠ []) then
        match name_for_locale (Taxon.names taxon) (default [] lang) with
        | Some entry => tn_name entry
        | None => None
        end
      else None in
    let preferred_common_name :=
      if negb (opt_truthy preferred_common_name)
      then Taxon.preferred_common_name taxon
      else preferred_common_name in
    if with_term then
      if bool_decide
           (Taxon.matched_term taxon
            ∉ [None; Some (Taxon.name taxon); preferred_common_name])
      then Taxon.matched_term taxon
      else preferred_common_name
    else if hierarchy then None
    else preferred_common_name
  else None.

(** The styling of a name at or below species level: the [else] branch of
    [if rank_level > RANK_LEVELS["species"]]. *)
Definition trinomial `{Constants} (rank name : str) : str :=
  match TRINOMIAL_ABBR !! rank with
  | Some abbr =>
      match split (chr " ") name with
      | [t0; t1; t2] =>
          t0 ++ lit " " ++ t1 ++ lit "* " ++ abbr ++ lit " *" ++ t2
      | _ => name
      end
  | None => name
  end.

(** The styling of a name above species level. *)
Definition ranked `{Constants} (hierarchy with_rank : bool) (rank name : str)
  : str :=
  if hierarchy then
    let bold : str * str :=
      if bool_decide (rank ∈ TAXON_PRIMARY_RANKS)
      then ([10%N] ++ lit "> **", lit "**")
      else ([], []) in
    bold.1 ++ name ++ bold.2
  else if with_rank then capitalize rank ++ lit " " ++ name
  else name.

Definition format_taxon_name `{Constants} (taxon : Taxon.t)
    (with_term hierarchy with_rank with_common : bool) (lang : option str)
  : result str :=
  let common := common_name taxon with_term hierarchy with_common lang in
  let name := Taxon.name taxon in
  let rank := Taxon.rank taxon in
  let* rank_level := getitem RANK_LEVELS rank in
  let* genus_level := getitem RANK_LEVELS (lit "genus") in
  let name := if rank_level <=? genus_level then italic name else name in
  let* species_level := getitem RANK_LEVELS (lit "species") in
  let name :=
    if species_level <? rank_level then ranked hierarchy with_rank rank name
    else trinomial rank name in
  let full_name :=
    if opt_truthy common
    then name ++ lit " (" ++ default [] common ++ lit ")"
    else name in
  let full_name :=
    if negb (Taxon.is_active taxon) then full_name ++ inactive_marker
    else full_name in
  Ok full_name.

(** ** [format_taxon_names] *)

Definition TAXON_LIST_DELIMITER : list str := [lit ", "; lit " > "].

(** [[f(x) for x in xs]]: the first exception ends the comprehension. *)
Fixpoint comprehension {A B} (f : A → result B) (xs : list A)
  : result (list B) :=
  match xs with
  | [] => Ok []
  | x :: xs' =>
      let* y := f x in
      let* ys := comprehension f xs' in
      Ok (y :: ys)
  end.

Section fit_names.
(** The variables of [format_taxon_names] that the nested functions of
    [fit_names] close over. *)
Variable names_format : str.
Variable max_len : Z.
Variable delimiter : str.

(** Account for space already used by format string (minus 2 for %s) *)
Definition available_len : Z := max_len - (len names_format - 2).

Definition more (count : Z) : str :=
  lit "and " ++ str_of_int count ++ lit " more".

Definition formatted_len (names_fit : list str) (name : str) : Z :=
  foldr Z.add 0 ((λ item, len item + len delimiter) <$> names_fit)
  + len name.

Definition overflow (names_fit : list str) (name : str) : bool :=
  available_len <? formatted_len names_fit name.

(** The [while] loop. [names_fit] is held newest first while it runs, so
    that [del names_fit[-1]] takes the head off; on an empty list that
    statement raises [IndexError]. *)
Fixpoint shrink (rev_names_fit : list str) (unprocessed : Z)
  : result (list str * Z) :=
  if overflow (rev rev_names_fit) (more unprocessed) then
    match rev_names_fit with
    | [] => Raise IndexError
    | _ :: rest => shrink rest (unprocessed + 1)
    end
  else Ok (rev rev_names_fit, unprocessed).

(** The [for] loop over [names], from the name at which it stands:
    [todo] are the names not yet visited. *)
Fixpoint fit_from (names todo names_fit : list str) : result (list str) :=
  match todo with
  | [] => Ok names_fit
  | name :: todo' =>
      if overflow names_fit name then
        let unprocessed := len names - len names_fit in
        let* '(names_fit, unprocessed) :=
          shrink (rev names_fit) unprocessed in
        Ok (names_fit ++ [more unprocessed])
      else fit_from names todo' (names_fit ++ [name])
  end.

Definition fit_names (names : list str) : result (list str) :=
  fit_from names names [].
End fit_names.

(** [TAXON_LIST_DELIMITER[int(hierarchy)]]. *)
Definition delimiter_for (hierarchy : bool) : str :=
  default [] (TAXON_LIST_DELIMITER !! (if hierarchy then 1 else 0)%nat).

(** [[format_taxon_name(taxon, with_term=with_term, hierarchy=hierarchy,
    lang=lang) for taxon in taxa]]. *)
Definition formatted_names `{Constants} (taxa : list Taxon.t)
    (with_term hierarchy : bool) (lang : option str) : result (list str) :=
  comprehension
    (λ taxon, format_taxon_name taxon with_term hierarchy true true lang)
    taxa.

Definition format_taxon_names `{Constants} (taxa : list Taxon.t)
    (with_term : bool) (names_format : str) (max_len : Z) (hierarchy : bool)
    (lang : option str)
  : result str :=
  let delimiter := delimiter_for hierarchy in
  let* names := formatted_names taxa with_term hierarchy lang in
  let* names :=
    if max_len =? 0 then Ok names
    else fit_names names_format max_len delimiter names in
  percent names_format (Some (join delimiter names)).

(** ** [format_taxon_conservation_status] *)

Definition is_digit (c : char) : bool := ((48 <=? c) && (c <=? 57))%N.

(** [re.sub(r"[0-9]", repl, s)] for a replacement text without backslashes,
    which stands for itself. *)
Definition sub_digits (repl s : str) : str :=
  c ← s; if is_digit c then repl else [c].

(** The first word of the status, after the substitution of its digits. The
    replacement text is built once, before [re.sub] is called, from the
    two-character string [r"\1"]. *)
Definition first_word `{Inflect} (description : str) : result str :=
  first (split_ws
           (sub_digits (lit " " ++ number_to_words (lit "\1") ++ lit " ")
                       description)).

Definition format_taxon_conservation_status `{Inflect}
    (status : ConservationStatus.t) (brief inflect : bool) : result str :=
  let description := ConservationStatus.display_name status in
  if brief then
    let linked_status :=
      format_link description (ConservationStatus.url status) in
    if inflect then
      (* inflect statuses with single digits in them correctly *)
      let* first_word := first_word description in
      let* article := first (split_ws (a first_word)) in
      Ok (join (lit " ") [article; linked_status])
    else Ok linked_status
  else
    let linked_status :=
      format_link (ConservationStatus.authority status)
                  (ConservationStatus.url status) in
    Ok (description ++ lit " (" ++ linked_status ++ lit ")").

(** ** [TaxonFormatter.ObsCountFormatter] *)

Module ObsCountFormatter.
Section methods.
Context `{Constants} `{Inflect}.
(** [self.taxon] *)
Variable taxon : Taxon.t.

Definition count : Z := Taxon.observations_count taxon.

Definition url : str :=
  WWW_BASE_URL ++ lit "/observations?taxon_id="
               ++ str_of_int (Taxon.id taxon).

Definition link : str :=
  let obs_count := count in
  let obs_url := url in
  format_link (str_of_int_grouped obs_count) (Some obs_url).

(** [count] here is the text of the link, and it is this text that is
    handed to [p.plural]. *)
Definition description : str :=
  let count := link in
  count ++ lit " " ++ plural (lit "observation") count.
End methods.
End ObsCountFormatter.

(** ** The text around the scientific name

    What [format_taxon_name] puts before and after the scientific name, for a
    rank above species level or not: the bold markers or the rank, the name in
    parentheses and the inactive marker. Used to state where the italic
    markers go. *)
Definition decoration `{Constants} (taxon : Taxon.t)
    (with_term hierarchy with_rank with_common : bool) (lang : option str)
    (above_species : bool) : str * str :=
  let common := common_name taxon with_term hierarchy with_common lang in
  let tail :=
    (if opt_truthy common then lit " (" ++ default [] common ++ lit ")"
     else [])
    ++ (if negb (Taxon.is_active taxon) then inactive_marker else []) in
  if above_species then
    if hierarchy then
      if bool_decide (Taxon.rank taxon ∈ TAXON_PRIMARY_RANKS)
      then ([10%N] ++ lit "> **", lit "**" ++ tail)
      else ([], tail)
    else if with_rank then (capitalize (Taxon.rank taxon) ++ lit " ", tail)
    else ([], tail)
  else ([], tail).

(** ** Sample parameters

    Used to run the formatters on concrete inputs. *)

(** Modelled from the spec: the tables of [dronefly.core.constants], which is
    not among the sources. The levels follow the order of the glossary
    (kingdom > phylum > ... > species > subspecies), the primary ranks are
    the major ranks, and the abbreviations are those the glossary names
    ("var.", "ssp."). *)
Definition sample_constants : Constants := {|
  RANK_LEVELS :=
    list_to_map
      [(lit "kingdom", 70); (lit "phylum", 60); (lit "class", 50);
       (lit "order", 40); (lit "family", 30); (lit "genus", 20);
       (lit "species", 10); (lit "subspecies", 5); (lit "variety", 5)];
  TRINOMIAL_ABBR :=
    list_to_map [(lit "subspecies", lit "ssp."); (lit "variety", lit "var.")];
  TAXON_PRIMARY_RANKS :=
    [lit "kingdom"; lit "phylum"; lit "class"; lit "order"; lit "family"];
  WWW_BASE_URL := lit "https://www.inaturalist.org";
|}.

(** An [inflect] engine on a small vocabulary: the number words of the
    digits; "a" before "one", "an" before a vowel letter and before the name
    of a letter that starts with a vowel sound, "a" otherwise; plurals in
    "-s". *)
Definition sample_number_to_words (num : str) : str :=
  match filter (λ c, is_digit c = true) num with
  | [d] =>
      default []
        ([lit "zero"; lit "one"; lit "two"; lit "three"; lit "four";
          lit "five"; lit "six"; lit "seven"; lit "eight"; lit "nine"]
           !! N.to_nat (d - 48))
  | _ => num
  end.

Definition sample_a (word : str) : str :=
  match word with
  | [] => []
  | [c] =>
      if bool_decide (lower c ∈ lit "aefhilmnorsx") then lit "an " ++ word
      else lit "a " ++ word
  | c :: _ =>
      if bool_decide (lower <$> take 3 word = lit "one") then lit "a " ++ word
      else if bool_decide (lower c ∈ lit "aeiou") then lit "an " ++ word
      else lit "a " ++ word
  end.

Definition sample_inflect : Inflect := {|
  number_to_words := sample_number_to_words;
  a := sample_a;
  plural_noun := λ noun, noun ++ lit "s";
|}.

(** A taxon with a scientific name and a rank, and nothing else of note. *)
Definition sample_taxon (name rank : string) (is_active : bool) : Taxon.t := {|
  Taxon.id := 1;
  Taxon.name := lit name;
  Taxon.rank := lit rank;
  Taxon.names := [];
  Taxon.preferred_common_name := None;
  Taxon.matched_term := None;
  Taxon.is_active := is_active;
  Taxon.observations_count := 1234;
|}.

(** * The other formatters of the module *)

(** ** [format_taxon_establishment_means] *)

Definition MEANS_LABEL_DESC : gmap str str :=
  list_to_map
    [(lit "endemic", lit "endemic to");
     (lit "native", lit "native in");
     (lit "introduced", lit "introduced to")].

(** The glyphs are SPARKLE, LARGE GREEN SQUARE and UP-POINTING SMALL RED
    TRIANGLE, one code point each. *)
Definition MEANS_LABEL_EMOJI : gmap str str :=
  list_to_map
    [(lit "endemic", [10055%N]);
     (lit "native", [129001%N]);
     (lit "introduced", [128316%N])].

Module Place.
Record t := {
  id : Z;
  display_name : str;
}.
End Place.

(** An [EstablishmentMeans] or, with [is_listed_taxon], a [ListedTaxon];
    [list_title] is [means.list.title] of the latter. *)
Module Means.
Record t := {
  id : Z;
  establishment_means : str;
  place : option Place.t;
  is_listed_taxon : bool;
  list_title : option str;
}.
End Means.

(** [means.place.display_name]: [None] has no attributes. *)
Definition place_display_name (means : Means.t) : result str :=
  match Means.place means with
  | Some place => Ok (Place.display_name place)
  | None => Raise AttributeError
  end.

(** The second half of [format_taxon_establishment_means], from the [try]
    on, for the [full_description] that the first half has built. *)
Definition linked_means `{Constants} (means : Means.t) (list_title : bool)
    (full_description : str) : str :=
  let emoji :=
    match MEANS_LABEL_EMOJI !! Means.establishment_means means with
    | Some glyph => glyph ++ [8239%N]
    | None => []
    end in
  let url :=
    WWW_BASE_URL ++ lit "/listed_taxa/" ++ str_of_int (Means.id means) in
  if list_title && Means.is_listed_taxon means
     && opt_truthy (Means.list_title means)
  then emoji ++ full_description ++ lit " "
       ++ format_link (default [] (Means.list_title means)) (Some url)
  else emoji ++ format_link full_description (Some url).

(** The result is [None] when the means are not shown. *)
Definition format_taxon_establishment_means `{Constants} (means : Means.t)
    (all_means list_title : bool) : result (option str) :=
  let label := Means.establishment_means means in
  let description := MEANS_LABEL_DESC !! label in
  match description with
  | None =>
      if negb all_means then Ok None
      else
        let* place := place_display_name means in
        let full_description :=
          lit "Establishment means " ++ label ++ lit " in " ++ place in
        Ok (Some (linked_means means list_title full_description))
  | Some description =>
      let* place := place_display_name means in
      let full_description := description ++ lit " " ++ place in
      Ok (Some (linked_means means list_title full_description))
  end.

(** ** [_full_means] and [TaxonFormatter] *)

(** What these can raise: the exceptions above and, from [next] on an
    exhausted generator, [StopIteration]. *)
Inductive raised : Set :=
| StopIteration
| Builtin (e : exn).

Inductive outcome (A : Type) : Type :=
| Return (a : A)
| Throw (e : raised).
Arguments Return {A} a.
Arguments Throw {A} e.

Definition outcome_of {A} (r : result A) : outcome A :=
  match r with
  | Ok a => Return a
  | Raise e => Throw (Builtin e)
  end.

Definition and_then {A B} (m : outcome A) (k : A → outcome B) : outcome B :=
  match m with
  | Return a => k a
  | Throw e => Throw e
  end.

Notation "'let+' x ':=' m 'in' k" := (and_then m (λ x, k))
  (at level 10, x name, m at level 100, k at level 200, only parsing).

(** The attributes of a [pyinaturalist] taxon that only [TaxonFormatter]
    and [_full_means] read; the others are those of [Taxon.t]. *)
Module TaxonMore.
Record t := {
  url : option str;
  conservation_status : option ConservationStatus.t;
  establishment_means : option Means.t;
  listed_taxa : list Means.t;
  ancestors : list Taxon.t;
}.
End TaxonMore.

(** [(listed_taxon.place and listed_taxon.place.id) == place.id]; a listed
    taxon without a place compares [None] with the id. *)
Definition listed_for (place : Place.t) (listed_taxon : Means.t) : bool :=
  match Means.place listed_taxon with
  | Some its_place => Place.id its_place =? Place.id place
  | None => false
  end.

(** Get the full establishment means for the place from listed taxa. The
    result is [None] when the function falls off its end. *)
Definition _full_means (more : TaxonMore.t) : outcome (option Means.t) :=
  let place :=
    match TaxonMore.establishment_means more with
    | Some means => Means.place means
    | None => None
    end in
  let listed_taxa := TaxonMore.listed_taxa more in
  match place, listed_taxa with
  | Some place, _ :: _ =>
      match filter (λ listed_taxon, listed_for place listed_taxon = true)
              listed_taxa with
      | found :: _ => Return (Some found)
      | [] => Throw StopIteration
      end
  | _, _ => Return None
  end.

Module TaxonFormatter.
(** [self] *)
Record t := {
  taxon : Taxon.t;
  taxon_more : TaxonMore.t;
  lang : option str;
  with_url : bool;
  matched_term : option str;
  max_len : Z;
  newline : str;
}.

Section methods.
Context `{Constants} `{Inflect}.
Variable self : t.

(** [[name["name"] for name in self.taxon.names if not name["is_valid"]]]:
    an entry without the key ["name"] raises [KeyError]. *)
Definition invalid_names : result (list str) :=
  comprehension
    (λ entry,
       match tn_name entry with
       | Some name => Ok name
       | None => Raise KeyError
       end)
    (filter (λ entry, tn_is_valid entry = false) (Taxon.names (taxon self))).

Definition format_title : result str :=
  let* title :=
    format_taxon_name (taxon self) false false true true (lang self) in
  let title :=
    if with_url self && opt_truthy (TaxonMore.url (taxon_more self))
    then format_link title (TaxonMore.url (taxon_more self))
    else title in
  let matched :=
    if opt_truthy (matched_term self) then matched_term self
    else Taxon.matched_term (taxon self) in
  let preferred_common_name := Taxon.preferred_common_name (taxon self) in
  let preferred_common_name :=
    if opt_truthy (lang self)
       && bool_decide (Taxon.names (taxon self) ≠ [])
    then
      match name_for_locale (Taxon.names (taxon self))
              (default [] (lang self)) with
      | Some entry => tn_name entry
      | None => preferred_common_name
      end
    else preferred_common_name in
  if bool_decide
       (matched ∉ [None; Some (Taxon.name (taxon self));
                   preferred_common_name])
  then
    let* invalid_names :=
      if bool_decide (Taxon.names (taxon self) ≠ []) then invalid_names
      else Ok [] in
    let matched := default [] matched in
    let matched :=
      if bool_decide (matched ∈ invalid_names)
      then lit "~~" ++ matched ++ lit "~~"
      else matched in
    Ok (title ++ lit " (" ++ matched ++ lit ")")
  else Ok title.

(** Format the taxon rank with optional status. *)
Definition format_taxon_status_rank : result str :=
  match TaxonMore.conservation_status (taxon_more self) with
  | Some status =>
      let* a_status := format_taxon_conservation_status status true true in
      Ok (a_status ++ lit " " ++ Taxon.rank (taxon self))
  | None => Ok (a (Taxon.rank (taxon self)))
  end.

Definition format_taxon_description : outcome str :=
  let+ a_status_rank := outcome_of format_taxon_status_rank in
  let n_observations := ObsCountFormatter.description (taxon self) in
  let description :=
    lit "is " ++ a_status_rank ++ lit " with " ++ n_observations in
  match TaxonMore.establishment_means (taxon_more self) with
  | Some establishment_means =>
      let+ full_means := _full_means (taxon_more self) in
      let listed_taxon := default establishment_means full_means in
      let+ established_in_place :=
        outcome_of
          (format_taxon_establishment_means listed_taxon false false) in
      if opt_truthy established_in_place
      then Return (description ++ lit " " ++ default [] established_in_place)
      else Return description
  | None => Return description
  end.

Definition format (with_ancestors : bool) : outcome str :=
  let+ title := outcome_of format_title in
  let+ taxon_description := format_taxon_description in
  let description := title ++ newline self ++ taxon_description in
  if with_ancestors
     && bool_decide (TaxonMore.ancestors (taxon_more self) ≠ [])
  then
    let+ names :=
      outcome_of
        (format_taxon_names (TaxonMore.ancestors (taxon_more self)) false
           (lit "%s") (max_len self) true None) in
    Return (description ++ lit " in: " ++ names)
  else Return (description ++ lit ".").
End methods.
End TaxonFormatter.

(** ** Samples for the formatter class *)

Definition sample_place (id : Z) (display_name : string) : Place.t :=
  {| Place.id := id; Place.display_name := lit display_name |}.

(** A listed taxon for a place, without a list title. *)
Definition sample_means (place : Place.t) (label : string) : Means.t := {|
  Means.id := 7;
  Means.establishment_means := lit label;
  Means.place := Some place;
  Means.is_listed_taxon := true;
  Means.list_title := None;
|}.

(** A formatter for the genus of the dandelions, with its URL. *)
Definition sample_formatter (establishment_means : option Means.t)
    (listed_taxa : list Means.t) (ancestors : list Taxon.t)
    (matched_term : option str) (max_len : Z) : TaxonFormatter.t := {|
  TaxonFormatter.taxon := sample_taxon "Taraxacum" "genus" true;
  TaxonFormatter.taxon_more := {|
    TaxonMore.url := Some (lit "https://www.inaturalist.org/taxa/47602");
    TaxonMore.conservation_status := None;
    TaxonMore.establishment_means := establishment_means;
    TaxonMore.listed_taxa := listed_taxa;
    TaxonMore.ancestors := ancestors;
  |};
  TaxonFormatter.lang := None;
  TaxonFormatter.with_url := true;
  TaxonFormatter.matched_term := matched_term;
  TaxonFormatter.max_len := max_len;
  TaxonFormatter.newline := [10%N];
|}.

(** * Properties *)

(** ** Evaluation on concrete inputs *)

Example format_quality_grade_both :
  format_quality_grade
    {[ lit "quality_grade" := PStr (lit "research,needs_id") ]}
  = Ok [lit "*Verifiable*"].
Proof. vm_compute. reflexivity. Qed.

Example format_quality_grade_false :
  format_quality_grade {[ lit "verifiable" := PStr (lit "false") ]}
  = Ok [lit "*not Verifiable*"].
Proof. vm_compute. reflexivity. Qed.

Example format_quality_grade_any :
  format_quality_grade {[ lit "quality_grade" := PStr (lit "any") ]}
  = Raise UnboundLocalError.
Proof. vm_compute. reflexivity. Qed.

(** ** Properties of [format_quality_grade] *)

Lemma verifiable_is_not_quality_grade :
  lit "verifiable" ≠ lit "quality_grade".
Proof. discriminate. Qed.

Lemma quality_grade_tokens_no_verifiable (options : gmap str pyval) :
  quality_grade_tokens (delete (lit "verifiable") options)
  = quality_grade_tokens options.
Proof.
  unfold quality_grade_tokens, dict_get.
  by rewrite lookup_delete_ne by apply verifiable_is_not_quality_grade.
Qed.

(** What [format_quality_grade] does once the tokens are split and
    [verifiable] is falsy: the result depends on the tokens alone. *)
Lemma format_quality_grade_falsy (options : gmap str pyval) :
  truthy (dict_get options (lit "verifiable")) = false →
  format_quality_grade options
  = format_quality_grade (delete (lit "verifiable") options).
Proof.
  intros Hfalsy. unfold format_quality_grade.
  rewrite quality_grade_tokens_no_verifiable.
  destruct (quality_grade_tokens options) as [toks|e]; simpl; [|done].
  rewrite Hfalsy.
  assert (Hdel : dict_get (delete (lit "verifiable") options) (lit "verifiable")
                 = PNone).
  { unfold dict_get. by rewrite lookup_delete_eq. }
  rewrite Hdel. simpl.
  destruct (dict_get options (lit "verifiable")) as [|b|s] eqn:Hv; simpl in *.
  - done.
  - subst b. done.
  - destruct s; [|done]. done.
Qed.

(** C2, as the code behaves: with the token [any] among the quality grades
    and a [verifiable] value that is not truthy, [research] is read before it
    was ever assigned, and the call ends in [UnboundLocalError] instead of
    returning a list of adjectives. *)
Theorem format_quality_grade_any_unbound (options : gmap str pyval) toks :
  quality_grade_tokens options = Ok toks →
  lit "any" ∈ toks →
  truthy (dict_get options (lit "verifiable")) = false →
  format_quality_grade options = Raise UnboundLocalError.
Proof.
  intros Htoks Hany Hfalsy. unfold format_quality_grade.
  rewrite Htoks. simpl. rewrite Hfalsy.
  rewrite bool_decide_eq_true_2 by done.
  destruct (dict_get options (lit "verifiable")) as [|b|s]; simpl in *.
  - done.
  - subst b. done.
  - destruct s; [|done]. done.
Qed.

Lemma format_quality_grade_any_unbound_witness :
  format_quality_grade {[ lit "quality_grade" := PStr (lit "any") ]}
  = Raise UnboundLocalError.
Proof.
  apply (format_quality_grade_any_unbound _ [lit "any"]).
  - vm_compute. reflexivity.
  - apply list_elem_of_here.
  - vm_compute. reflexivity.
Defined.

(** C10: an empty-string [verifiable] gives the same result as no
    [verifiable] key at all, whatever else the mapping holds; the test
    against ["true"] and the empty string is only reached for truthy
    values. *)
Theorem format_quality_grade_empty_verifiable (options : gmap str pyval) :
  format_quality_grade (<[lit "verifiable" := PStr []]> options)
  = format_quality_grade (delete (lit "verifiable") options).
Proof.
  rewrite format_quality_grade_falsy.
  - by rewrite delete_insert_eq.
  - unfold dict_get. by rewrite lookup_insert_eq.
Qed.

(** ** Strings *)

Lemma len_app {A} (l1 l2 : list A) : len (l1 ++ l2) = len l1 + len l2.
Proof. unfold len. rewrite length_app. lia. Qed.

Lemma len_nonneg {A} (l : list A) : 0 ≤ len l.
Proof. unfold len. lia. Qed.

Lemma len_cons {A} (x : A) (l : list A) : len (x :: l) = 1 + len l.
Proof. unfold len. simpl. lia. Qed.

Lemma split_nonempty sep s : split sep s ≠ [].
Proof.
  destruct s as [|c s]; simpl; [done|].
  destruct (c =? sep)%N; [done|]. by destruct (split sep s).
Qed.

(** A character that is not the separator, put in front, joins the first
    field. *)
Lemma split_cons_other sep c s w ws :
  c ≠ sep → split sep s = w :: ws → split sep (c :: s) = (c :: w) :: ws.
Proof.
  intros Hc Hs. simpl. rewrite Hs.
  by destruct (N.eqb_spec c sep).
Qed.

(** A character that is not the separator, put at the end, joins the last
    field. *)
Lemma split_snoc_other sep c s ws w :
  c ≠ sep → split sep s = ws ++ [w] →
  split sep (s ++ [c]) = ws ++ [w ++ [c]].
Proof.
  intros Hc. revert ws w.
  induction s as [|x s IH]; intros ws w Hs; simpl in *.
  - destruct ws as [|? [|? ?]]; simplify_eq/=.
    by destruct (N.eqb_spec c sep).
  - destruct (x =? sep)%N.
    + destruct ws as [|w0 ws]; simplify_eq/=.
      { by destruct s; simpl in *;
          [|destruct (_ =? _)%N; [|destruct (split _ _)]]. }
      f_equal. by apply IH.
    + destruct (split sep s) as [|v vs] eqn:Hv;
        [by destruct (split_nonempty sep s)|].
      destruct ws as [|w0 ws]; simplify_eq/=.
      * rewrite (IH [] v) by done. done.
      * rewrite (IH (v :: ws) w) by done. done.
Qed.

(** The fields of an italicized name are those of the name, with the markers
    on the first and the last. *)
Lemma split_italic name t1 t2 t3 :
  split (chr " ") name = [t1; t2; t3] →
  split (chr " ") (italic name) = [lit "*" ++ t1; t2; t3 ++ lit "*"].
Proof.
  intros Hs.
  change (italic name) with (chr "*" :: (name ++ [chr "*"])).
  change (lit "*" ++ t1) with (chr "*" :: t1).
  change (lit "*") with [chr "*"].
  apply split_cons_other; [by vm_compute|].
  apply (split_snoc_other _ _ _ [t1; t2] t3); [by vm_compute|done].
Qed.


(** ** [format_taxon_name] *)

Section format_taxon_name_properties.
Context `{Constants}.
Variables (taxon : Taxon.t).
Variables (with_term hierarchy with_rank with_common : bool).
Variable lang : option str.

(** With the three levels found in the table, the result is the styled
    name followed by the common name and the inactive marker. *)
Lemma format_taxon_name_known lvl g s :
  RANK_LEVELS !! Taxon.rank taxon = Some lvl →
  RANK_LEVELS !! lit "genus" = Some g →
  RANK_LEVELS !! lit "species" = Some s →
  format_taxon_name taxon with_term hierarchy with_rank with_common lang
  = Ok ((let name :=
           if lvl <=? g then italic (Taxon.name taxon)
           else Taxon.name taxon in
         if s <? lvl then ranked hierarchy with_rank (Taxon.rank taxon) name
         else trinomial (Taxon.rank taxon) name)
        ++ (decoration taxon with_term hierarchy with_rank with_common lang
              false).2).
Proof.
  intros Hlvl Hg Hs. unfold format_taxon_name, getitem, decoration.
  rewrite Hlvl, Hg, Hs. cbn [bind snd].
  destruct (opt_truthy _), (Taxon.is_active taxon); cbn [negb];
    by rewrite <- ?(assoc_L (++)), ?app_nil_r.
Qed.



(** C8: a rank that the rank table does not hold makes the lookup fail,
    and [format_taxon_name] raises [KeyError] instead of returning a
    name. *)
Theorem format_taxon_name_unknown_rank :
  RANK_LEVELS !! Taxon.rank taxon = None →
  format_taxon_name taxon with_term hierarchy with_rank with_common lang
  = Raise KeyError.
Proof.
  intros Hrank. unfold format_taxon_name, getitem. by rewrite Hrank.
Qed.


(** C5: at or below species level, for a rank with an abbreviation and a
    name of three fields, the result starts with the first two fields in
    italics, the abbreviation, and the third field in italics. *)
Theorem format_taxon_name_trinomial lvl g s abbr t1 t2 t3 :
  RANK_LEVELS !! Taxon.rank taxon = Some lvl →
  RANK_LEVELS !! lit "genus" = Some g →
  RANK_LEVELS !! lit "species" = Some s →
  lvl ≤ s → s ≤ g →
  TRINOMIAL_ABBR !! Taxon.rank taxon = Some abbr →
  split (chr " ") (Taxon.name taxon) = [t1; t2; t3] →
  ∃ rest,
    format_taxon_name taxon with_term hierarchy with_rank with_common lang
    = Ok (lit "*" ++ t1 ++ lit " " ++ t2 ++ lit "* " ++ abbr
          ++ lit " *" ++ t3 ++ lit "*" ++ rest).
Proof.
  intros Hlvl Hg Hs Hle Hsg Habbr Hsplit.
  rewrite (format_taxon_name_known lvl g s) by done.
  rewrite (proj2 (Z.leb_le lvl g)) by lia.
  rewrite (proj2 (Z.ltb_ge s lvl)) by lia.
  unfold trinomial. rewrite Habbr, (split_italic _ t1 t2 t3) by done.
  eexists. by rewrite <- !(assoc_L (++)).
Qed.

End format_taxon_name_properties.

Lemma format_taxon_name_unknown_rank_witness :
  format_taxon_name (H := sample_constants)
    (sample_taxon "Animalia" "realm" true) false false true true None
  = Raise KeyError.
Proof.
  apply format_taxon_name_unknown_rank. vm_compute. reflexivity.
Defined.


Lemma format_taxon_name_trinomial_witness :
  ∃ rest,
    format_taxon_name (H := sample_constants)
      (sample_taxon "Anser anser domesticus" "variety" true)
      false false true true None
    = Ok (lit "*" ++ lit "Anser" ++ lit " " ++ lit "anser" ++ lit "* "
          ++ lit "var." ++ lit " *" ++ lit "domesticus" ++ lit "*" ++ rest).
Proof.
  apply (format_taxon_name_trinomial _ _ _ _ _ _ 5 20 10);
    try (vm_compute; reflexivity); lia.
Defined.


Example format_taxon_name_genus :
  format_taxon_name (H := sample_constants)
    (sample_taxon "Taraxacum" "genus" false) false false true true None
  = Ok (lit "Genus *Taraxacum* " ++ [10071%N] ++ lit " Inactive Taxon").
Proof. vm_compute. reflexivity. Qed.

Example format_taxon_name_variety :
  format_taxon_name (H := sample_constants)
    (sample_taxon "Anser anser domesticus" "variety" true)
    false false true true None
  = Ok (lit "*Anser anser* var. *domesticus*").
Proof. vm_compute. reflexivity. Qed.

Example format_taxon_name_kingdom_hierarchy :
  format_taxon_name (H := sample_constants)
    (sample_taxon "Animalia" "kingdom" true) false true true true None
  = Ok ([10%N] ++ lit "> **Animalia**").
Proof. vm_compute. reflexivity. Qed.

(** ** The [%] operator *)

Lemma percent_literal s : chr "%" ∉ s → percent s None = Ok s.
Proof.
  induction s as [|c s IH]; intros Hs; [done|].
  apply not_elem_of_cons in Hs as [Hc Hs]. cbn [percent].
  destruct (N.eqb_spec c (chr "%")) as [->|_]; [done|].
  by rewrite IH.
Qed.

(** A format with one [%s] and no other [%]: the argument takes the place
    of the [%s]. *)
Lemma percent_one pre post arg :
  chr "%" ∉ pre → chr "%" ∉ post →
  percent (pre ++ lit "%s" ++ post) (Some arg) = Ok (pre ++ arg ++ post).
Proof.
  intros Hpre Hpost. induction pre as [|c pre IH].
  - change (percent ([] ++ lit "%s" ++ post) (Some arg))
      with (let* out := percent post None in Ok (arg ++ out)).
    by rewrite percent_literal.
  - apply not_elem_of_cons in Hpre as [Hc Hpre].
    change ((c :: pre) ++ lit "%s" ++ post)
      with (c :: (pre ++ lit "%s" ++ post)).
    cbn [percent].
    destruct (N.eqb_spec c (chr "%")) as [->|_]; [done|].
    by rewrite IH.
Qed.

(** ** [fit_names] *)

Lemma join_cons delimiter x items :
  items ≠ [] →
  join delimiter (x :: items) = x ++ delimiter ++ join delimiter items.
Proof. by destruct items. Qed.

(** The joined text ends with its last item. *)
Lemma join_snoc delimiter items x :
  ∃ front, join delimiter (items ++ [x]) = front ++ x.
Proof.
  induction items as [|y items [front IH]].
  - by exists [].
  - exists (y ++ delimiter ++ front).
    change ((y :: items) ++ [x]) with (y :: (items ++ [x])).
    rewrite join_cons by (by destruct items).
    by rewrite IH, <- !(assoc_L (++)).
Qed.

Section fit_names_properties.
Variables (names_format : str) (max_len : Z) (delimiter : str).

Local Abbreviation avail := (available_len names_format max_len).
Local Abbreviation over := (overflow names_format max_len delimiter).

(** [formatted_len] is the length of the accepted names joined with one
    more item. *)
Lemma formatted_len_join names_fit name :
  formatted_len delimiter names_fit name
  = len (join delimiter (names_fit ++ [name])).
Proof.
  unfold formatted_len. induction names_fit as [|y l IH]; [simpl; lia|].
  change ((y :: l) ++ [name]) with (y :: (l ++ [name])).
  rewrite join_cons by (by destruct l).
  rewrite !len_app, <- IH. cbn [fmap list_fmap foldr]. lia.
Qed.

(** When the [while] loop ends normally, it has dropped names from the end
    of [names_fit], counted each of them, and the placeholder fits. *)
Lemma shrink_spec rev_names_fit unprocessed kept k :
  shrink names_format max_len delimiter rev_names_fit unprocessed
  = Ok (kept, k) →
  ∃ dropped,
    rev rev_names_fit = kept ++ dropped
    ∧ k = unprocessed + len dropped
    ∧ over kept (more k) = false.
Proof.
  revert unprocessed.
  induction rev_names_fit as [|x r IH]; intros u; cbn [shrink].
  - destruct (over (rev []) (more u)) eqn:Hover; [done|].
    intros [= <- <-]. exists []. by rewrite Z.add_0_r.
  - destruct (over (rev (x :: r)) (more u)) eqn:Hover.
    + intros (dropped & Hrev & -> & Hfits)%IH.
      exists (dropped ++ [x]).
      split_and!;
        [|rewrite len_app, len_cons; unfold len; simpl; lia|done].
      cbn [rev]. by rewrite Hrev, <- (assoc_L (++)).
    + intros [= <- <-]. exists []. by rewrite app_nil_r, Z.add_0_r.
Qed.

(** The loop ends normally if the placeholder that counts every name fits
    on its own; otherwise it runs out of names to drop. *)
Lemma shrink_total rev_names_fit unprocessed :
  over [] (more (unprocessed + len rev_names_fit)) = false →
  ∃ kept k,
    shrink names_format max_len delimiter rev_names_fit unprocessed
    = Ok (kept, k).
Proof.
  revert unprocessed.
  induction rev_names_fit as [|x r IH]; intros u Hfits; cbn [shrink].
  - change (len []) with 0 in Hfits. rewrite Z.add_0_r in Hfits.
    cbn [rev]. rewrite Hfits. eauto.
  - destruct (over (rev (x :: r)) (more u)); [|eauto].
    apply IH. rewrite len_cons in Hfits.
    by replace (u + 1 + len r) with (u + (1 + len r)) by lia.
Qed.

(** The [for] loop, when the names do not all fit. *)
Lemma fit_from_overflows names todo names_fit :
  names = names_fit ++ todo →
  names_fit = [] ∨ len (join delimiter names_fit) ≤ avail →
  avail < len (join delimiter names) →
  over [] (more (len names)) = false →
  ∃ kept dropped k,
    names = kept ++ dropped
    ∧ k = len dropped
    ∧ 1 ≤ k
    ∧ fit_from names_format max_len delimiter names todo names_fit
      = Ok (kept ++ [more k])
    ∧ formatted_len delimiter kept (more k) ≤ avail.
Proof.
  intros Hnames Hinv Hlong Hmore. revert names_fit Hnames Hinv.
  induction todo as [|name todo IH]; intros fit Hnames Hinv.
  - rewrite app_nil_r in Hnames. subst fit.
    destruct Hinv as [->|Hinv]; [|lia].
    exfalso. unfold overflow, formatted_len in Hmore.
    apply Z.ltb_ge in Hmore. cbn in Hmore, Hlong.
    pose proof (len_nonneg (more (len (@nil (list N))))).
    change (len (@nil N)) with 0 in Hlong. lia.
  - cbn [fit_from]. destruct (over fit name) eqn:Hover.
    + destruct (shrink_total (rev fit) (len names - len fit))
        as (kept & k & Hshrink).
      { replace (len names - len fit + len (rev fit)) with (len names);
          [done|]. unfold len. rewrite length_rev. lia. }
      rewrite Hshrink. cbn [bind].
      apply shrink_spec in Hshrink as (dropped & Hrev & -> & Hfits).
      rewrite rev_involutive in Hrev.
      exists kept, (dropped ++ name :: todo), (len (dropped ++ name :: todo)).
      assert (Hk : len names - len fit + len dropped
                   = len (dropped ++ name :: todo)).
      { rewrite Hnames, Hrev. rewrite !len_app, len_cons. lia. }
      rewrite Hk in *. split_and!; [|done| | |].
      * by rewrite Hnames, Hrev, <- (assoc_L (++)).
      * rewrite len_app, len_cons.
        pose proof (len_nonneg dropped). pose proof (len_nonneg todo). lia.
      * done.
      * unfold overflow in Hfits. by apply Z.ltb_ge in Hfits.
    + apply IH.
      * by rewrite <- (assoc_L (++)).
      * right. rewrite <- formatted_len_join.
        unfold overflow in Hover. by apply Z.ltb_ge in Hover.
Qed.
End fit_names_properties.

(** ** [format_taxon_names] *)

(** The comprehension returns the results of its calls, one for each
    element and in their order. *)
Lemma comprehension_Forall2 {A B} (f : A → result B) xs ys :
  Forall2 (λ x y, f x = Ok y) xs ys → comprehension f xs = Ok ys.
Proof.
  induction 1 as [|x y xs ys Hx _ IH]; [done|].
  cbn [comprehension]. by rewrite Hx, IH.
Qed.

(** Every item stands in the joined text. *)
Lemma join_infix delimiter items item :
  item ∈ items →
  ∃ front back, join delimiter items = front ++ item ++ back.
Proof.
  induction items as [|x items IH]; [by intros ?%elem_of_nil|].
  destruct items as [|y items].
  - intros ->%list_elem_of_singleton. exists [], []. by rewrite app_nil_r.
  - rewrite (join_cons delimiter x (y :: items)) by done.
    intros [->|Hin]%elem_of_cons.
    + by exists [], (delimiter ++ join delimiter (y :: items)).
    + destruct (IH Hin) as (front & back & ->).
      exists (x ++ delimiter ++ front), back.
      by rewrite <- !(assoc_L (++)).
Qed.

(** The joined text is at least as long as its items together. *)
Lemma join_total_len delimiter items :
  foldr (λ item total, len item + total) 0 items
  ≤ len (join delimiter items).
Proof.
  induction items as [|x items IH]; [done|].
  destruct items as [|y items].
  - cbn [foldr join]. lia.
  - rewrite (join_cons delimiter x (y :: items)) by done.
    rewrite !len_app. pose proof (len_nonneg delimiter).
    change (foldr _ 0 (x :: y :: items))
      with (len x + foldr (λ item total, len item + total) 0 (y :: items)).
    lia.
Qed.

Section format_taxon_names_properties.
Context `{Constants}.
Variables (taxa : list Taxon.t) (with_term hierarchy : bool).
Variable lang : option str.


(** With [max_len = 0] and a format with one [%s]: the result and its
    length. *)
Lemma format_taxon_names_all_len names before after :
  formatted_names taxa with_term hierarchy lang = Ok names →
  chr "%" ∉ before → chr "%" ∉ after →
  format_taxon_names taxa with_term (before ++ lit "%s" ++ after) 0
    hierarchy lang
  = Ok (before ++ join (delimiter_for hierarchy) names ++ after)
  ∧ len (before ++ join (delimiter_for hierarchy) names ++ after)
    = len (before ++ lit "%s" ++ after) - 2
      + len (join (delimiter_for hierarchy) names).
Proof.
  intros Hnames Hbefore Hafter.
  unfold format_taxon_names. rewrite Hnames. cbn [bind Z.eqb].
  rewrite percent_one by done. split; [done|].
  rewrite !len_app. change (len (lit "%s")) with 2. lia.
Qed.

(** C9: with [max_len = 0] the names are never cut. For taxa whose names
    are all formatted and a format with one [%s], the result is the format
    with, in place of the [%s], the formatted names of all the taxa, in their
    order, joined by the delimiter: every name stands in it, there is no
    placeholder, and the result is as long as the format and the joined
    names make it, at least the length of all the names together. *)
Theorem format_taxon_names_unbounded names before after :
  Forall2
    (λ taxon name,
       format_taxon_name taxon with_term hierarchy true true lang = Ok name)
    taxa names →
  chr "%" ∉ before → chr "%" ∉ after →
  let delimiter := if hierarchy then lit " > " else lit ", " in
  let out := before ++ join delimiter names ++ after in
  format_taxon_names taxa with_term (before ++ lit "%s" ++ after) 0
    hierarchy lang
  = Ok out
  ∧ (∀ name, name ∈ names → ∃ front back, out = front ++ name ++ back)
  ∧ len out
    = len (before ++ lit "%s" ++ after) - 2 + len (join delimiter names)
  ∧ foldr (λ name total, len name + total) 0 names ≤ len out.
Proof.
  intros Hnames Hbefore Hafter delimiter out.
  assert (Hall : formatted_names taxa with_term hierarchy lang = Ok names)
    by (by apply comprehension_Forall2).
  assert (Hdelimiter : delimiter_for hierarchy = delimiter)
    by (by destruct hierarchy).
  destruct (format_taxon_names_all_len names before after Hall Hbefore Hafter)
    as [Hout Hlen].
  rewrite Hdelimiter in Hout, Hlen. fold out in Hout, Hlen.
  split_and!; [done| |done|].
  - intros name (front & back & Hjoin)%(join_infix delimiter).
    exists (before ++ front), (back ++ after).
    unfold out. rewrite Hjoin. by rewrite <- !(assoc_L (++)).
  - pose proof (join_total_len delimiter names).
    unfold out. rewrite !len_app.
    pose proof (len_nonneg before). pose proof (len_nonneg after). lia.
Qed.

(** C1, as the code behaves: when the names do not all fit in [max_len],
    and the placeholder that counts all of them does, the result is the
    format applied to a shortened list: some first names, then
    ["and K more"] where [K ≥ 1] counts the names left out. The placeholder
    ends the joined list, and the whole result is at most [max_len] long. *)
Theorem format_taxon_names_truncated names before after max_len :
  let names_format := before ++ lit "%s" ++ after in
  formatted_names taxa with_term hierarchy lang = Ok names →
  chr "%" ∉ before → chr "%" ∉ after →
  0 < max_len →
  available_len names_format max_len
  < len (join (delimiter_for hierarchy) names) →
  len (more (len names)) ≤ available_len names_format max_len →
  ∃ kept dropped front,
    names = kept ++ dropped
    ∧ 1 ≤ len dropped
    ∧ join (delimiter_for hierarchy) (kept ++ [more (len dropped)])
      = front ++ more (len dropped)
    ∧ format_taxon_names taxa with_term names_format max_len hierarchy lang
      = Ok (before ++ front ++ more (len dropped) ++ after)
    ∧ len (before ++ front ++ more (len dropped) ++ after) ≤ max_len.
Proof.
  intros names_format Hnames Hbefore Hafter Hpos Hlong Hmore.
  destruct (fit_from_overflows names_format max_len
              (delimiter_for hierarchy) names names [])
    as (kept & dropped & k & Hsplit & -> & Hk & Hfit & Hlen);
    [done|by left|done| |].
  { unfold overflow, formatted_len. apply Z.ltb_ge. cbn. lia. }
  destruct (join_snoc (delimiter_for hierarchy) kept (more (len dropped)))
    as [front Hfront].
  exists kept, dropped, front. split_and!; [done..| |].
  - unfold format_taxon_names. rewrite Hnames. cbn [bind].
    rewrite (proj2 (Z.eqb_neq max_len 0)) by lia.
    unfold fit_names. rewrite Hfit. cbn [bind].
    subst names_format. rewrite percent_one by done.
    by rewrite Hfront, <- (assoc_L (++)).
  - rewrite formatted_len_join, Hfront in Hlen.
    unfold available_len in Hlen. subst names_format.
    rewrite !len_app in *. change (len (lit "%s")) with 2 in Hlen. lia.
Qed.
End format_taxon_names_properties.

Lemma format_taxon_names_truncated_witness :
  let taxa :=
    [sample_taxon "Animalia" "kingdom" true;
     sample_taxon "Chordata" "phylum" true;
     sample_taxon "Aves" "class" true] in
  ∃ kept dropped front,
    [lit "Kingdom Animalia"; lit "Phylum Chordata"; lit "Class Aves"]
    = kept ++ dropped
    ∧ 1 ≤ len dropped
    ∧ join (lit ", ") (kept ++ [more (len dropped)])
      = front ++ more (len dropped)
    ∧ format_taxon_names (H := sample_constants) taxa false
        ([] ++ lit "%s" ++ []) 30 false None
      = Ok ([] ++ front ++ more (len dropped) ++ [])
    ∧ len ([] ++ front ++ more (len dropped) ++ []) ≤ 30.
Proof.
  apply (format_taxon_names_truncated
           (H := sample_constants)
           [sample_taxon "Animalia" "kingdom" true;
            sample_taxon "Chordata" "phylum" true;
            sample_taxon "Aves" "class" true]
           false false None
           [lit "Kingdom Animalia"; lit "Phylum Chordata"; lit "Class Aves"]
           [] [] 30).
  - vm_compute. reflexivity.
  - apply not_elem_of_nil.
  - apply not_elem_of_nil.
  - lia.
  - vm_compute. reflexivity.
  - vm_compute. discriminate.
Defined.

Lemma format_taxon_names_unbounded_witness :
  let taxa :=
    [sample_taxon "Animalia" "kingdom" true;
     sample_taxon "Chordata" "phylum" true;
     sample_taxon "Aves" "class" true] in
  let names :=
    [lit "Kingdom Animalia"; lit "Phylum Chordata"; lit "Class Aves"] in
  let out := lit "in: " ++ join (lit ", ") names ++ lit "." in
  format_taxon_names (H := sample_constants) taxa false
    (lit "in: " ++ lit "%s" ++ lit ".") 0 false None
  = Ok out
  ∧ (∀ name, name ∈ names → ∃ front back, out = front ++ name ++ back)
  ∧ len out
    = len (lit "in: " ++ lit "%s" ++ lit ".") - 2
      + len (join (lit ", ") names)
  ∧ foldr (λ name total, len name + total) 0 names ≤ len out.
Proof.
  intros taxa names.
  apply (format_taxon_names_unbounded (H := sample_constants) taxa false
           false None names (lit "in: ") (lit ".")).
  - repeat constructor; vm_compute; reflexivity.
  - apply (bool_decide_unpack _). vm_compute. exact I.
  - apply (bool_decide_unpack _). vm_compute. exact I.
Defined.

Example format_taxon_names_all :
  format_taxon_names (H := sample_constants)
    [sample_taxon "Animalia" "kingdom" true;
     sample_taxon "Chordata" "phylum" true;
     sample_taxon "Aves" "class" true]
    false (lit "%s") 0 false None
  = Ok (lit "Kingdom Animalia, Phylum Chordata, Class Aves").
Proof. vm_compute. reflexivity. Qed.

Example format_taxon_names_cut :
  format_taxon_names (H := sample_constants)
    [sample_taxon "Animalia" "kingdom" true;
     sample_taxon "Chordata" "phylum" true;
     sample_taxon "Aves" "class" true]
    false (lit "%s") 30 false None
  = Ok (lit "Kingdom Animalia, and 2 more").
Proof. vm_compute. reflexivity. Qed.

(** With a suffix in the format, the result ends with the suffix and the
    placeholder stands before it. *)
Example format_taxon_names_cut_in_format :
  format_taxon_names (H := sample_constants)
    [sample_taxon "Animalia" "kingdom" true;
     sample_taxon "Chordata" "phylum" true;
     sample_taxon "Aves" "class" true]
    false (lit "in: %s.") 30 false None
  = Ok (lit "in: and 3 more.").
Proof. vm_compute. reflexivity. Qed.

(** C1, as stated, fails: one name of 16 characters and [max_len = 5]. The
    name does not fit, the shortest placeholder (10 characters) does not fit
    either, and the loop that makes room for it deletes from an empty list:
    the call raises [IndexError] and returns no string. *)
Lemma format_taxon_names_small_budget :
  let taxa := [sample_taxon "Animalia" "kingdom" true] in
  format_taxon_names (H := sample_constants) taxa false (lit "%s") 0 false None
  = Ok (lit "Kingdom Animalia")
  ∧ 0 < 5 < len (lit "Kingdom Animalia")
  ∧ format_taxon_names (H := sample_constants) taxa false (lit "%s") 5 false
      None
    = Raise IndexError
  ∧ ¬ ∃ out,
        format_taxon_names (H := sample_constants) taxa false (lit "%s") 5
          false None
        = Ok out.
Proof.
  split_and!; try (vm_compute; reflexivity).
  intros [out Hout]. vm_compute in Hout. discriminate.
Qed.

(** ** [format_taxon_conservation_status] *)

Section conservation_status_properties.
Context `{Inflect}.

(** Every digit is replaced by the same text. *)
Lemma sub_digits_digit repl before d after :
  is_digit d = true →
  sub_digits repl (before ++ d :: after)
  = sub_digits repl before ++ repl ++ sub_digits repl after.
Proof.
  intros Hd. unfold sub_digits.
  rewrite bind_app, bind_cons. by rewrite Hd.
Qed.

Lemma first_word_digit before d1 d2 after :
  is_digit d1 = true → is_digit d2 = true →
  first_word (before ++ d1 :: after) = first_word (before ++ d2 :: after).
Proof.
  intros Hd1 Hd2. unfold first_word.
  by rewrite !sub_digits_digit.
Qed.

(** C4, as the code behaves: the article does not depend on which digit
    the label holds. The text put in place of a digit is computed once,
    from the string [r"\1"] and not from the digit found, so a label with
    "8" gets the article of the same label with "1", where "eight" and
    "one" call for different articles. *)
Theorem conservation_status_article_ignores_digit
    before d1 d2 after authority url out :
  is_digit d1 = true → is_digit d2 = true →
  format_taxon_conservation_status
    {| ConservationStatus.display_name := before ++ d1 :: after;
       ConservationStatus.authority := authority;
       ConservationStatus.url := url |} true true
  = Ok out →
  ∃ article,
    out = article ++ lit " " ++ format_link (before ++ d1 :: after) url
    ∧ format_taxon_conservation_status
        {| ConservationStatus.display_name := before ++ d2 :: after;
           ConservationStatus.authority := authority;
           ConservationStatus.url := url |} true true
      = Ok (article ++ lit " " ++ format_link (before ++ d2 :: after) url).
Proof.
  intros Hd1 Hd2. unfold format_taxon_conservation_status.
  cbn [ConservationStatus.display_name ConservationStatus.url].
  rewrite (first_word_digit before d1 d2 after) by done.
  destruct (first_word (before ++ d2 :: after)) as [word|e]; cbn [bind];
    [|done].
  destruct (first (split_ws (a word))) as [article|e]; cbn [bind]; [|done].
  intros [= <-]. by exists article.
Qed.
End conservation_status_properties.

Lemma conservation_status_article_ignores_digit_witness :
  ∃ article,
    lit "a [8B](u)"
    = article ++ lit " " ++ format_link (lit "8B") (Some (lit "u"))
    ∧ format_taxon_conservation_status (H := sample_inflect)
        {| ConservationStatus.display_name := lit "1B";
           ConservationStatus.authority := lit "NatureServe";
           ConservationStatus.url := Some (lit "u") |} true true
      = Ok (article ++ lit " " ++ format_link (lit "1B") (Some (lit "u"))).
Proof.
  apply (conservation_status_article_ignores_digit
           (H := sample_inflect) [] (chr "8") (chr "1") (lit "B")
           (lit "NatureServe") (Some (lit "u")) (lit "a [8B](u)"));
    vm_compute; reflexivity.
Defined.

(** On the sample engine: the label "8B" gets "a", the article of "one",
    where the number word of its digit gets "an". *)
Example conservation_status_eight :
  format_taxon_conservation_status (H := sample_inflect)
    {| ConservationStatus.display_name := lit "8B";
       ConservationStatus.authority := lit "NatureServe";
       ConservationStatus.url := Some (lit "u") |} true true
  = Ok (lit "a [8B](u)")
  ∧ a (Inflect := sample_inflect)
      (number_to_words (Inflect := sample_inflect) (lit "8"))
    = lit "an eight".
Proof. split; vm_compute; reflexivity. Qed.

Example conservation_status_endangered :
  format_taxon_conservation_status (H := sample_inflect)
    {| ConservationStatus.display_name := lit "endangered";
       ConservationStatus.authority := lit "IUCN";
       ConservationStatus.url := None |} true true
  = Ok (lit "an endangered").
Proof. vm_compute. reflexivity. Qed.

(** ** [ObsCountFormatter] *)

Section obs_count_properties.
Context `{Constants} `{Inflect}.
Variable taxon : Taxon.t.

(** The URL is never empty, so the count is always wrapped in a link. *)
Lemma link_text :
  ObsCountFormatter.link taxon
  = lit "[" ++ str_of_int_grouped (Taxon.observations_count taxon)
    ++ lit "](" ++ ObsCountFormatter.url taxon ++ lit ")".
Proof.
  unfold ObsCountFormatter.link, format_link, ObsCountFormatter.url.
  by destruct WWW_BASE_URL.
Qed.

(** The text of the link starts with a bracket: it is none of the counts
    read as one. *)
Lemma link_not_one : ObsCountFormatter.link taxon ∉ pl_count_one.
Proof.
  rewrite link_text. intros Hin.
  assert (Hhead : Forall (λ one, head one ≠ Some (chr "[")) pl_count_one).
  { unfold pl_count_one. repeat constructor; by vm_compute. }
  rewrite Forall_forall in Hhead. by apply Hhead in Hin.
Qed.

(** Whatever the count, the noun is in the plural. *)
Lemma description_plural :
  ObsCountFormatter.description taxon
  = ObsCountFormatter.link taxon ++ lit " "
    ++ plural_noun (lit "observation").
Proof.
  unfold ObsCountFormatter.description, plural.
  by rewrite bool_decide_eq_false_2 by apply link_not_one.
Qed.

(** C3, as the code behaves: a count of 1234 is shown as "1,234", inside
    a link, and followed by the plural "observations", as is a count
    of 2. *)
Theorem description_observations :
  plural_noun (lit "observation") = lit "observations" →
  (Taxon.observations_count taxon = 1234 →
   ObsCountFormatter.description taxon
   = lit "[1,234](" ++ ObsCountFormatter.url taxon ++ lit ") observations")
  ∧ (Taxon.observations_count taxon = 2 →
     ObsCountFormatter.description taxon
     = lit "[2](" ++ ObsCountFormatter.url taxon ++ lit ") observations").
Proof.
  intros Hplural. rewrite description_plural, Hplural, link_text.
  split; intros ->.
  - change (str_of_int_grouped 1234) with (lit "1,234").
    by rewrite <- !(assoc_L (++)).
  - change (str_of_int_grouped 2) with (lit "2").
    by rewrite <- !(assoc_L (++)).
Qed.
End obs_count_properties.

Lemma description_observations_witness :
  let taxon := sample_taxon "Animalia" "kingdom" true in
  (Taxon.observations_count taxon = 1234 →
   ObsCountFormatter.description (H := sample_constants) (H0 := sample_inflect)
     taxon
   = lit "[1,234](" ++ ObsCountFormatter.url (H := sample_constants) taxon
     ++ lit ") observations")
  ∧ (Taxon.observations_count taxon = 2 →
     ObsCountFormatter.description (H := sample_constants)
       (H0 := sample_inflect) taxon
     = lit "[2](" ++ ObsCountFormatter.url (H := sample_constants) taxon
       ++ lit ") observations").
Proof.
  apply (description_observations
           (H := sample_constants) (H0 := sample_inflect)
           (sample_taxon "Animalia" "kingdom" true)).
  vm_compute. reflexivity.
Defined.

(** C3, as stated, fails: for a count of 1234 the word after the link is
    "observations", not the singular. *)
Lemma description_1234_not_singular :
  let taxon := sample_taxon "Animalia" "kingdom" true in
  Taxon.observations_count taxon = 1234
  ∧ ObsCountFormatter.description (H := sample_constants)
      (H0 := sample_inflect) taxon
    = lit "[1,234](https://www.inaturalist.org/observations?taxon_id=1)"
      ++ lit " observations"
  ∧ ObsCountFormatter.description (H := sample_constants)
      (H0 := sample_inflect) taxon
    ≠ ObsCountFormatter.link (H := sample_constants) taxon
      ++ lit " observation"
  ∧ ¬ (lit "observation"
       `suffix_of` ObsCountFormatter.description (H := sample_constants)
                     (H0 := sample_inflect) taxon).
Proof.
  split_and!; try (vm_compute; reflexivity).
  - vm_compute. discriminate.
  - intros [front Hsuffix].
    apply (f_equal last) in Hsuffix.
    rewrite last_app in Hsuffix. vm_compute in Hsuffix. discriminate.
Qed.

(** * Further properties *)

(** ** [format_quality_grade] *)

Lemma quality_grade_tokens_insert_verifiable (options : gmap str pyval) v :
  quality_grade_tokens (<[lit "verifiable" := v]> options)
  = quality_grade_tokens options.
Proof.
  unfold quality_grade_tokens, dict_get.
  by rewrite lookup_insert_ne by apply verifiable_is_not_quality_grade.
Qed.

Lemma quality_grade_tokens_ok (options : gmap str pyval) :
  dict_get options (lit "quality_grade") ≠ PBool true →
  ∃ toks, quality_grade_tokens options = Ok toks.
Proof.
  unfold quality_grade_tokens.
  destruct (dict_get options (lit "quality_grade")) as [|[]|s]; eauto.
  by intros [].
Qed.

(** X1: the adjectives returned are never more than one: "Research Grade"
    and "Needs ID" together are replaced by "Verifiable". *)
Theorem format_quality_grade_at_most_one (options : gmap str pyval) adjectives :
  format_quality_grade options = Ok adjectives →
  adjectives ∈ [[]; [lit "*not Verifiable*"]; [lit "*Verifiable*"];
                [lit "*Research Grade*"]; [lit "*Needs ID*"]].
Proof.
  unfold format_quality_grade.
  destruct (quality_grade_tokens options) as [toks|e]; [|done].
  cbn [bind].
  destruct (bool_decide (lit "any" ∈ toks));
    destruct (truthy (dict_get options (lit "verifiable")));
    destruct (bool_decide (dict_get options (lit "verifiable")
                           ∈ [PStr (lit "true"); PStr []]));
    destruct (bool_decide (dict_get options (lit "verifiable")
                           = PStr (lit "false")));
    destruct (bool_decide (lit "research" ∈ toks));
    destruct (bool_decide (lit "needs_id" ∈ toks));
    cbn; intros [= <-]; set_solver.
Qed.

Lemma format_quality_grade_at_most_one_witness :
  [lit "*Verifiable*"]
  ∈ [[]; [lit "*not Verifiable*"]; [lit "*Verifiable*"];
     [lit "*Research Grade*"]; [lit "*Needs ID*"]].
Proof.
  apply (format_quality_grade_at_most_one
           {[ lit "quality_grade" := PStr (lit "research,needs_id") ]}).
  vm_compute. reflexivity.
Defined.

(** X2: [verifiable] set to "false" gives "not Verifiable" and nothing
    else, whatever the quality grades are, the token [any] included. *)
Theorem format_quality_grade_not_verifiable (options : gmap str pyval) :
  dict_get options (lit "quality_grade") ≠ PBool true →
  dict_get options (lit "verifiable") = PStr (lit "false") →
  format_quality_grade options = Ok [lit "*not Verifiable*"].
Proof.
  intros [toks Htoks]%quality_grade_tokens_ok Hv.
  unfold format_quality_grade. rewrite Htoks, Hv. cbn [bind].
  by destruct (bool_decide (lit "any" ∈ toks)).
Qed.

Lemma format_quality_grade_not_verifiable_witness :
  format_quality_grade
    {[ lit "quality_grade" := PStr (lit "any");
       lit "verifiable" := PStr (lit "false") ]}
  = Ok [lit "*not Verifiable*"].
Proof.
  apply format_quality_grade_not_verifiable.
  - vm_compute. discriminate.
  - vm_compute. reflexivity.
Defined.

(** X3: [verifiable] set to "true" overrides the quality grades: the result
    is "Verifiable" alone, also with the token [any]. *)
Theorem format_quality_grade_verifiable (options : gmap str pyval) :
  dict_get options (lit "quality_grade") ≠ PBool true →
  dict_get options (lit "verifiable") = PStr (lit "true") →
  format_quality_grade options = Ok [lit "*Verifiable*"].
Proof.
  intros [toks Htoks]%quality_grade_tokens_ok Hv.
  unfold format_quality_grade. rewrite Htoks, Hv. cbn [bind].
  by destruct (bool_decide (lit "any" ∈ toks)).
Qed.

Lemma format_quality_grade_verifiable_witness :
  format_quality_grade
    {[ lit "quality_grade" := PStr (lit "any");
       lit "verifiable" := PStr (lit "true") ]}
  = Ok [lit "*Verifiable*"].
Proof.
  apply format_quality_grade_verifiable.
  - vm_compute. discriminate.
  - vm_compute. reflexivity.
Defined.

(** X4: a [verifiable] value other than "true" and "false" has no effect:
    the call behaves as if the key were absent. *)
Theorem format_quality_grade_other_verifiable (options : gmap str pyval) v :
  v ≠ PStr (lit "true") → v ≠ PStr (lit "false") →
  format_quality_grade (<[lit "verifiable" := v]> options)
  = format_quality_grade (delete (lit "verifiable") options).
Proof.
  intros Htrue Hfalse. unfold format_quality_grade.
  rewrite quality_grade_tokens_insert_verifiable,
    quality_grade_tokens_no_verifiable.
  destruct (quality_grade_tokens options) as [toks|e]; [|done].
  cbn [bind]. unfold dict_get.
  rewrite lookup_insert_eq, lookup_delete_eq.
  cbn [default from_option id truthy].
  rewrite (bool_decide_eq_false_2 (v = PStr (lit "false"))) by done.
  rewrite (bool_decide_eq_false_2 (PNone = PStr (lit "false"))) by done.
  destruct (truthy v) eqn:Htruthy; [|done].
  rewrite (bool_decide_eq_false_2 (v ∈ _)); [done|].
  intros [->|[->|[]%elem_of_nil]%elem_of_cons]%elem_of_cons; done.
Qed.

Lemma format_quality_grade_other_verifiable_witness :
  format_quality_grade
    (<[lit "verifiable" := PStr (lit "yes")]>
       {[ lit "quality_grade" := PStr (lit "research") ]})
  = format_quality_grade
      (delete (lit "verifiable")
         {[ lit "quality_grade" := PStr (lit "research") ]}).
Proof.
  apply format_quality_grade_other_verifiable; vm_compute; discriminate.
Defined.

(** X5: without the token [any] the call returns its list, whatever
    [verifiable] holds. *)
Theorem format_quality_grade_returns (options : gmap str pyval) toks :
  quality_grade_tokens options = Ok toks →
  lit "any" ∉ toks →
  ∃ adjectives, format_quality_grade options = Ok adjectives.
Proof.
  intros Htoks Hany. unfold format_quality_grade. rewrite Htoks.
  cbn [bind]. rewrite (bool_decide_eq_false_2 _ Hany).
  destruct (truthy (dict_get options (lit "verifiable"))),
    (bool_decide (dict_get options (lit "verifiable")
                  ∈ [PStr (lit "true"); PStr []])),
    (bool_decide (dict_get options (lit "verifiable") = PStr (lit "false"))),
    (bool_decide (lit "research" ∈ toks)),
    (bool_decide (lit "needs_id" ∈ toks)); cbn; eauto.
Qed.

Lemma format_quality_grade_returns_witness :
  ∃ adjectives,
    format_quality_grade
      {[ lit "quality_grade" := PStr (lit "needs_id") ]}
    = Ok adjectives.
Proof.
  apply (format_quality_grade_returns _ [lit "needs_id"]).
  - vm_compute. reflexivity.
  - vm_compute. intros Hin. inversion Hin as [|? ? ? Hin']; inversion Hin'.
Defined.

(** ** [format_taxon_name]: errors, options and the name for a locale *)

Lemma filter_none {A} (P : A → Prop) `{∀ x, Decision (P x)} (l : list A) :
  Forall (λ x, ¬ P x) l → filter P l = [].
Proof.
  induction 1 as [|x l Hx _ IH]; [done|].
  by rewrite filter_cons_False.
Qed.

Section format_taxon_name_more.
Context `{Constants}.
Variable taxon : Taxon.t.

(** X6: the only exception is [KeyError], and it is raised exactly when the
    rank of the taxon, "genus" or "species" is missing from the rank
    table. *)
Theorem format_taxon_name_key_error
    (with_term hierarchy with_rank with_common : bool) (lang : option str) :
  let found :=
    is_Some (RANK_LEVELS !! Taxon.rank taxon)
    ∧ is_Some (RANK_LEVELS !! lit "genus")
    ∧ is_Some (RANK_LEVELS !! lit "species") in
  match format_taxon_name taxon with_term hierarchy with_rank with_common
          lang with
  | Ok _ => found
  | Raise e => e = KeyError ∧ ¬ found
  end.
Proof.
  unfold format_taxon_name, getitem.
  destruct (RANK_LEVELS !! Taxon.rank taxon) as [lvl|] eqn:Hlvl; cbn [bind];
    [|split; [done|by intros ([] & _ & _)]].
  destruct (RANK_LEVELS !! lit "genus") as [g|] eqn:Hg; cbn [bind];
    [|split; [done|by intros (_ & [] & _)]].
  destruct (RANK_LEVELS !! lit "species") as [s|] eqn:Hs; cbn [bind];
    [|split; [done|by intros (_ & _ & [])]].
  split_and!; by eexists.
Qed.

(** X7: in a hierarchy, and without a matched term asked for, neither the
    common name nor the rank is shown: [with_rank], [with_common] and
    [lang] make no difference. *)
Theorem format_taxon_name_hierarchy_options
    (with_rank with_common with_rank' with_common' : bool)
    (lang lang' : option str) :
  format_taxon_name taxon false true with_rank with_common lang
  = format_taxon_name taxon false true with_rank' with_common' lang'.
Proof.
  unfold format_taxon_name, common_name, ranked.
  by destruct with_common, with_common'.
Qed.

(** X8: with a language given, the common name of an active taxon is the
    name of the first entry of [taxon.names] for that locale, if that name
    is not empty; it is added in parentheses to what is shown without a
    common name. *)
Theorem format_taxon_name_locale
    (with_rank : bool) lang earlier entry later name out :
  format_taxon_name taxon false false with_rank false None = Ok out →
  str_truthy lang = true →
  Taxon.names taxon = earlier ++ entry :: later →
  Forall (λ other, tn_locale other ≠ Some lang) earlier →
  tn_locale entry = Some lang →
  tn_name entry = Some name →
  str_truthy name = true →
  Taxon.is_active taxon = true →
  format_taxon_name taxon false false with_rank true (Some lang)
  = Ok (out ++ lit " (" ++ name ++ lit ")").
Proof.
  intros Hout Hlang Hnames Hearlier Hentry Hname Htruthy Hactive.
  revert Hout. unfold format_taxon_name.
  destruct (getitem RANK_LEVELS (Taxon.rank taxon)) as [lvl|e]; [|done].
  destruct (getitem RANK_LEVELS (lit "genus")) as [g|e]; [|done].
  destruct (getitem RANK_LEVELS (lit "species")) as [s|e]; [|done].
  cbn [bind]. rewrite Hactive. cbn [negb common_name opt_truthy].
  intros [= <-].
  assert (Hfound : name_for_locale (Taxon.names taxon) lang = Some entry).
  { unfold name_for_locale.
    rewrite Hnames, filter_app, filter_cons_True by done.
    by rewrite (filter_none _ earlier). }
  unfold common_name. cbn [opt_truthy default from_option id].
  rewrite Hlang, Hfound, Hname.
  assert (Hsome : Taxon.names taxon ≠ [])
    by (rewrite Hnames; by destruct earlier).
  rewrite (bool_decide_eq_true_2 _ Hsome).
  cbn [andb opt_truthy negb default from_option id].
  rewrite Htruthy. cbn [negb opt_truthy]. by rewrite Htruthy.
Qed.
End format_taxon_name_more.

Lemma format_taxon_name_locale_witness :
  let dandelions := {|
    tn_locale := Some (lit "en"); tn_name := Some (lit "dandelions");
    tn_is_valid := true |} in
  let pissenlits := {|
    tn_locale := Some (lit "fr"); tn_name := Some (lit "pissenlits");
    tn_is_valid := true |} in
  let taxon := {|
    Taxon.id := 47602; Taxon.name := lit "Taraxacum";
    Taxon.rank := lit "genus"; Taxon.names := [dandelions; pissenlits];
    Taxon.preferred_common_name := Some (lit "dandelions");
    Taxon.matched_term := None; Taxon.is_active := true;
    Taxon.observations_count := 2 |} in
  format_taxon_name (H := sample_constants) taxon false false true true
    (Some (lit "fr"))
  = Ok (lit "Genus *Taraxacum*" ++ lit " (" ++ lit "pissenlits" ++ lit ")").
Proof.
  intros dandelions pissenlits taxon.
  apply (format_taxon_name_locale (H := sample_constants) taxon true
           (lit "fr") [dandelions] pissenlits []).
  - vm_compute. reflexivity.
  - reflexivity.
  - reflexivity.
  - repeat constructor. vm_compute. discriminate.
  - reflexivity.
  - reflexivity.
  - reflexivity.
  - reflexivity.
Defined.

(** ** Decimal numerals *)

Lemma uint_digits_length d : length (uint_digits d) = Decimal.nb_digits d.
Proof. induction d; simpl; congruence. Qed.

Lemma little_succ_digits d :
  (Decimal.nb_digits (Decimal.Little.succ d) ≤ S (Decimal.nb_digits d))%nat.
Proof. induction d; simpl; lia. Qed.

Lemma nat_digits_little n :
  length (nat_digits n)
  = Decimal.nb_digits (DecimalPos.Unsigned.to_lu n).
Proof.
  unfold nat_digits. rewrite uint_digits_length.
  destruct n as [|p]; [done|].
  apply DecimalFacts.nb_digits_rev.
Qed.

(** One more adds at most one digit. *)
Lemma nat_digits_succ n :
  (length (nat_digits (N.succ n)) ≤ S (length (nat_digits n)))%nat.
Proof.
  rewrite !nat_digits_little, DecimalPos.Unsigned.to_lu_succ.
  apply little_succ_digits.
Qed.

Lemma str_of_int_succ n :
  0 ≤ n → len (str_of_int (n + 1)) ≤ len (str_of_int n) + 1.
Proof.
  intros Hn. unfold str_of_int, len.
  rewrite (proj2 (Z.ltb_ge n 0)), (proj2 (Z.ltb_ge (n + 1) 0)) by lia.
  replace (Z.abs_N (n + 1)) with (N.succ (Z.abs_N n)) by lia.
  pose proof (nat_digits_succ (Z.abs_N n)). lia.
Qed.

(** A placeholder for [k] more names is at most [k] characters longer. *)
Lemma more_add n (k : nat) :
  0 ≤ n → len (more (n + Z.of_nat k)) ≤ len (more n) + Z.of_nat k.
Proof.
  intros Hn. induction k as [|k IH].
  - rewrite Z.add_0_r. lia.
  - replace (n + Z.of_nat (S k)) with (n + Z.of_nat k + 1) by lia.
    pose proof (str_of_int_succ (n + Z.of_nat k)) as Hsucc.
    unfold more in *. rewrite !len_app in *. lia.
Qed.

(** ** [fit_names]: the three cases *)

Lemma join_prefix_len delimiter (l1 l2 : list str) :
  len (join delimiter l1) ≤ len (join delimiter (l1 ++ l2)).
Proof.
  induction l1 as [|x l IH]; [apply len_nonneg|].
  change ((x :: l) ++ l2) with (x :: (l ++ l2)).
  destruct l as [|y l].
  - destruct l2 as [|z l2]; [done|].
    change (len (join delimiter [x])) with (len x).
    rewrite (join_cons delimiter x ([] ++ z :: l2)) by done.
    rewrite !len_app. pose proof (len_nonneg delimiter).
    pose proof (len_nonneg (join delimiter ([] ++ z :: l2))). lia.
  - cbn [app] in *.
    rewrite (join_cons delimiter x (y :: l)),
      (join_cons delimiter x (y :: l ++ l2)) by done.
    rewrite !len_app. lia.
Qed.

Section fit_names_cases.
Variables (names_format : str) (max_len : Z) (delimiter : str).

Local Abbreviation avail := (available_len names_format max_len).
Local Abbreviation over := (overflow names_format max_len delimiter).

(** Names that fit together are all kept. *)
Lemma fit_from_fits names todo names_fit :
  names = names_fit ++ todo →
  len (join delimiter names) ≤ avail →
  fit_from names_format max_len delimiter names todo names_fit = Ok names.
Proof.
  intros Hnames Hfits. revert names_fit Hnames.
  induction todo as [|name todo IH]; intros fit Hnames; cbn [fit_from].
  - by rewrite app_nil_r in Hnames; subst.
  - assert (Hover : over fit name = false).
    { unfold overflow. apply Z.ltb_ge. rewrite formatted_len_join.
      pose proof (join_prefix_len delimiter (fit ++ [name]) todo) as Hle.
      rewrite <- (assoc_L (++)) in Hle. cbn [app] in Hle.
      rewrite <- Hnames in Hle. lia. }
    rewrite Hover. apply IH. by rewrite <- (assoc_L (++)).
Qed.

(** Whatever is returned fits. *)
Lemma fit_from_sound names todo names_fit out :
  names_fit = [] ∨ len (join delimiter names_fit) ≤ avail →
  fit_from names_format max_len delimiter names todo names_fit = Ok out →
  out = [] ∨ len (join delimiter out) ≤ avail.
Proof.
  revert names_fit.
  induction todo as [|name todo IH]; intros fit Hinv; cbn [fit_from].
  - by intros [= <-].
  - destruct (over fit name) eqn:Hover.
    + destruct (shrink _ _ _ (rev fit) _) as [[kept k]|e] eqn:Hshrink;
        cbn [bind]; [|done].
      intros [= <-]. right.
      apply shrink_spec in Hshrink as (_ & _ & _ & Hfits).
      rewrite <- formatted_len_join.
      unfold overflow in Hfits. by apply Z.ltb_ge in Hfits.
    + apply IH. right. rewrite <- formatted_len_join.
      unfold overflow in Hover. by apply Z.ltb_ge in Hover.
Qed.

(** Nothing is returned for something. *)
Lemma fit_from_nil names todo names_fit :
  fit_from names_format max_len delimiter names todo names_fit = Ok [] →
  names_fit ++ todo = [].
Proof.
  revert names_fit.
  induction todo as [|name todo IH]; intros fit; cbn [fit_from].
  - intros [= ->]. done.
  - destruct (over fit name).
    + destruct (shrink _ _ _ (rev fit) _) as [[kept k]|e]; cbn [bind];
        [|done].
      intros [= Hnil]. by destruct kept.
    + intros Hnil%IH. by destruct fit.
Qed.

Lemma formatted_len_lower names_fit name :
  len names_fit * len delimiter + len name
  ≤ formatted_len delimiter names_fit name.
Proof.
  unfold formatted_len.
  induction names_fit as [|x l IH]; cbn [fmap list_fmap foldr];
    [change (len (@nil (list N))) with 0; lia|].
  rewrite len_cons. pose proof (len_nonneg x). nia.
Qed.

(** Dropping names does not help a placeholder that is too long on its
    own: each name dropped takes a delimiter with it, and adds at most one
    digit to the count. *)
Lemma shrink_fails rev_names_fit unprocessed :
  1 ≤ len delimiter →
  0 ≤ unprocessed →
  avail < len (more (unprocessed + len rev_names_fit)) →
  shrink names_format max_len delimiter rev_names_fit unprocessed
  = Raise IndexError.
Proof.
  intros Hdelimiter. revert unprocessed.
  induction rev_names_fit as [|x r IH]; intros u Hu Hlong; cbn [shrink].
  - change (len (@nil (list N))) with 0 in Hlong.
    rewrite Z.add_0_r in Hlong.
    assert (Hover : over (rev []) (more u) = true).
    { unfold overflow, formatted_len. apply Z.ltb_lt. cbn. lia. }
    by rewrite Hover.
  - assert (Hover : over (rev (x :: r)) (more u) = true).
    { unfold overflow. apply Z.ltb_lt.
      pose proof (formatted_len_lower (rev (x :: r)) (more u)) as Hlower.
      pose proof (more_add u (length (x :: r)) Hu) as Hmore.
      assert (len (rev (x :: r)) = len (x :: r)) as Hrev
        by (unfold len; by rewrite length_rev).
      rewrite Hrev in Hlower. fold (len (x :: r)) in Hmore.
      pose proof (len_nonneg (x :: r)). nia. }
    rewrite Hover. apply IH; [lia|].
    rewrite len_cons in Hlong.
    by replace (u + 1 + len r) with (u + (1 + len r)) by lia.
Qed.

(** The [for] loop fails when the names do not all fit and the placeholder
    for all of them does not fit either. *)
Lemma fit_from_fails names todo names_fit :
  1 ≤ len delimiter →
  names ≠ [] →
  names = names_fit ++ todo →
  names_fit = [] ∨ len (join delimiter names_fit) ≤ avail →
  avail < len (join delimiter names) →
  avail < len (more (len names)) →
  fit_from names_format max_len delimiter names todo names_fit
  = Raise IndexError.
Proof.
  intros Hdelimiter Hsome Hnames Hinv Hlong Hmore.
  revert names_fit Hnames Hinv.
  induction todo as [|name todo IH]; intros fit Hnames Hinv; cbn [fit_from].
  - rewrite app_nil_r in Hnames. subst fit.
    destruct Hinv as [->|Hinv]; [done|lia].
  - destruct (over fit name) eqn:Hover.
    + rewrite shrink_fails; [done|done| |].
      * rewrite Hnames, len_app, len_cons. pose proof (len_nonneg todo). lia.
      * replace (len names - len fit + len (rev fit)) with (len names);
          [done|]. unfold len. rewrite length_rev. lia.
    + apply IH.
      * by rewrite <- (assoc_L (++)).
      * right. rewrite <- formatted_len_join.
        unfold overflow in Hover. by apply Z.ltb_ge in Hover.
Qed.
End fit_names_cases.

(** ** [format_taxon_names]: the length bound and the three cases *)

Lemma comprehension_length {A B} (f : A → result B) xs ys :
  comprehension f xs = Ok ys → length ys = length xs.
Proof.
  revert ys. induction xs as [|x xs IH]; intros ys; cbn [comprehension].
  - by intros [= <-].
  - destruct (f x) as [y|e]; cbn [bind]; [|done].
    destruct (comprehension f xs) as [ys'|e]; cbn [bind]; [|done].
    intros [= <-]. cbn. by rewrite (IH ys').
Qed.

Lemma delimiter_for_len hierarchy : 1 ≤ len (delimiter_for hierarchy).
Proof. by destruct hierarchy. Qed.

Section format_taxon_names_cases.
Context `{Constants}.
Variables (taxa : list Taxon.t) (with_term hierarchy : bool).
Variable lang : option str.

(** X9: for a list that is not empty and a [max_len] other than 0, a
    string that is returned is never longer than [max_len]. *)
Theorem format_taxon_names_within_max_len before after max_len out :
  taxa ≠ [] →
  max_len ≠ 0 →
  chr "%" ∉ before → chr "%" ∉ after →
  format_taxon_names taxa with_term (before ++ lit "%s" ++ after) max_len
    hierarchy lang
  = Ok out →
  len out ≤ max_len.
Proof.
  intros Htaxa Hmax Hbefore Hafter. unfold format_taxon_names.
  destruct (formatted_names taxa with_term hierarchy lang) as [names|e]
    eqn:Hnames; cbn [bind]; [|done].
  rewrite (proj2 (Z.eqb_neq max_len 0)) by done. unfold fit_names.
  destruct (fit_from _ _ _ names names []) as [fitted|e] eqn:Hfit;
    cbn [bind]; [|done].
  rewrite percent_one by done. intros [= <-].
  destruct (fit_from_sound _ _ _ _ _ _ _ (or_introl eq_refl) Hfit)
    as [->|Hlen].
  - apply fit_from_nil in Hfit. cbn [app] in Hfit. subst names.
    apply comprehension_length in Hnames. by destruct taxa.
  - unfold available_len in Hlen. rewrite !len_app in *.
    change (len (lit "%s")) with 2 in Hlen. lia.
Qed.

(** X10: when all the names fit, [max_len] changes nothing: the result is
    that for [max_len = 0]. *)
Theorem format_taxon_names_all_fit names names_format max_len :
  formatted_names taxa with_term hierarchy lang = Ok names →
  len (join (delimiter_for hierarchy) names)
  ≤ available_len names_format max_len →
  format_taxon_names taxa with_term names_format max_len hierarchy lang
  = format_taxon_names taxa with_term names_format 0 hierarchy lang.
Proof.
  intros Hnames Hfits. unfold format_taxon_names.
  rewrite Hnames. cbn [bind Z.eqb].
  destruct (max_len =? 0); [done|].
  unfold fit_names. by rewrite fit_from_fits.
Qed.

(** X11: when the names do not all fit and the placeholder that counts all
    of them does not fit either, the call raises [IndexError], whatever the
    names are. *)
Theorem format_taxon_names_index_error names names_format max_len :
  formatted_names taxa with_term hierarchy lang = Ok names →
  taxa ≠ [] →
  max_len ≠ 0 →
  available_len names_format max_len
  < len (join (delimiter_for hierarchy) names) →
  available_len names_format max_len < len (more (len names)) →
  format_taxon_names taxa with_term names_format max_len hierarchy lang
  = Raise IndexError.
Proof.
  intros Hnames Htaxa Hmax Hlong Hmore. unfold format_taxon_names.
  rewrite Hnames. cbn [bind].
  rewrite (proj2 (Z.eqb_neq max_len 0)) by done. unfold fit_names.
  rewrite fit_from_fails; [done|apply delimiter_for_len| |done|by left|done..].
  intros ->. apply comprehension_length in Hnames. by destruct taxa.
Qed.
End format_taxon_names_cases.

Lemma format_taxon_names_within_max_len_witness :
  len (lit "Kingdom Animalia, and 2 more") ≤ 30.
Proof.
  apply (format_taxon_names_within_max_len (H := sample_constants)
           [sample_taxon "Animalia" "kingdom" true;
            sample_taxon "Chordata" "phylum" true;
            sample_taxon "Aves" "class" true]
           false false None [] [] 30).
  - discriminate.
  - lia.
  - apply not_elem_of_nil.
  - apply not_elem_of_nil.
  - vm_compute. reflexivity.
Defined.

Lemma format_taxon_names_all_fit_witness :
  let taxa :=
    [sample_taxon "Animalia" "kingdom" true;
     sample_taxon "Chordata" "phylum" true] in
  format_taxon_names (H := sample_constants) taxa false (lit "%s") 40 true
    None
  = format_taxon_names (H := sample_constants) taxa false (lit "%s") 0 true
      None.
Proof.
  apply (format_taxon_names_all_fit (H := sample_constants) _ _ _ _
           [[10%N] ++ lit "> **Animalia**"; [10%N] ++ lit "> **Chordata**"]).
  - vm_compute. reflexivity.
  - vm_compute. discriminate.
Defined.

Lemma format_taxon_names_index_error_witness :
  format_taxon_names (H := sample_constants)
    [sample_taxon "Animalia" "kingdom" true;
     sample_taxon "Chordata" "phylum" true]
    false (lit "%s") 9 false None
  = Raise IndexError.
Proof.
  apply (format_taxon_names_index_error (H := sample_constants) _ _ _ _
           [lit "Kingdom Animalia"; lit "Phylum Chordata"]).
  - vm_compute. reflexivity.
  - discriminate.
  - lia.
  - vm_compute. reflexivity.
  - vm_compute. reflexivity.
Defined.

(** ** [format_taxon_conservation_status]: words and articles *)

Lemma space_is_no_digit c : is_space c = true → is_digit c = false.
Proof.
  unfold is_space, is_digit. intros Hspace.
  destruct (N.leb_spec 48 c), (N.leb_spec c 57); [|done..].
  repeat match goal with
         | H : context [(?x <=? ?y)%N] |- _ => destruct (N.leb_spec x y)
         | H : context [(?x =? ?y)%N] |- _ => destruct (N.eqb_spec x y)
         end; cbn in Hspace; (done || lia).
Qed.

Lemma sub_digits_no_digit repl s :
  Forall (λ c, is_digit c = false) s → sub_digits repl s = s.
Proof.
  unfold sub_digits. induction 1 as [|c s Hc _ IH]; [done|].
  rewrite bind_cons, Hc, IH. done.
Qed.

Lemma split_ws_from_spaces s :
  Forall (λ c, is_space c = true) s → split_ws_from [] s = [].
Proof.
  induction 1 as [|c s Hc _ IH]; [done|].
  cbn [split_ws_from str_truthy]. by rewrite Hc.
Qed.

(** A word of [s.split()] is not empty and holds no whitespace. *)
Lemma split_ws_from_words cur s word :
  Forall (λ c, is_space c = false) cur →
  word ∈ split_ws_from cur s →
  word ≠ [] ∧ Forall (λ c, is_space c = false) word.
Proof.
  revert cur. induction s as [|c s IH]; intros cur Hcur; cbn [split_ws_from].
  - destruct cur as [|x cur]; cbn [str_truthy];
      [by intros ?%elem_of_nil|].
    by intros ->%list_elem_of_singleton.
  - destruct (is_space c) eqn:Hc.
    + destruct cur as [|x cur]; cbn [str_truthy].
      * by apply IH.
      * intros [->|Hin]%elem_of_cons; [done|]. by apply (IH []).
    + apply IH. apply Forall_app. split; [done|]. by repeat constructor.
Qed.

Section conservation_status_words.
Context `{Inflect}.
Variable status : ConservationStatus.t.

(** X12: in the brief, inflected form a label without a word (empty, or of
    whitespace only) raises [IndexError]: there is no first word to take
    the article from. *)
Theorem conservation_status_blank_label :
  Forall (λ c, is_space c = true) (ConservationStatus.display_name status) →
  format_taxon_conservation_status status true true = Raise IndexError.
Proof.
  intros Hblank. unfold format_taxon_conservation_status, first_word.
  rewrite sub_digits_no_digit
    by (eapply Forall_impl; [done|apply space_is_no_digit]).
  unfold split_ws. by rewrite split_ws_from_spaces.
Qed.

(** X13: whenever the brief, inflected form is returned, it is one word
    (the article: not empty, no whitespace), one space, and the label as it
    is, numerals included, linked if there is a URL. *)
Theorem conservation_status_shape out :
  format_taxon_conservation_status status true true = Ok out →
  ∃ article,
    out = article ++ lit " "
          ++ format_link (ConservationStatus.display_name status)
               (ConservationStatus.url status)
    ∧ article ≠ []
    ∧ Forall (λ c, is_space c = false) article.
Proof.
  unfold format_taxon_conservation_status.
  destruct (first_word _) as [word|e]; cbn [bind]; [|done].
  destruct (split_ws (a word)) as [|article words] eqn:Hwords;
    cbn [first bind]; [done|].
  intros [= <-]. exists article. split; [done|].
  apply (split_ws_from_words [] (a word)); [done|].
  fold (split_ws (a word)). rewrite Hwords. apply list_elem_of_here.
Qed.

(** X14: for a label without digits the article is that of its first word:
    [number_to_words] plays no part. *)
Theorem conservation_status_no_digit :
  Forall (λ c, is_digit c = false) (ConservationStatus.display_name status) →
  format_taxon_conservation_status status true true
  = let* word := first (split_ws (ConservationStatus.display_name status)) in
    let* article := first (split_ws (a word)) in
    Ok (article ++ lit " "
        ++ format_link (ConservationStatus.display_name status)
             (ConservationStatus.url status)).
Proof.
  intros Hplain. unfold format_taxon_conservation_status, first_word.
  by rewrite sub_digits_no_digit.
Qed.
End conservation_status_words.

Lemma conservation_status_blank_label_witness :
  format_taxon_conservation_status (H := sample_inflect)
    {| ConservationStatus.display_name := lit "  ";
       ConservationStatus.authority := lit "IUCN";
       ConservationStatus.url := None |} true true
  = Raise IndexError.
Proof.
  apply conservation_status_blank_label. by repeat constructor.
Defined.

Lemma conservation_status_shape_witness :
  ∃ article,
    lit "an [S3](u)"
    = article ++ lit " " ++ format_link (lit "S3") (Some (lit "u"))
    ∧ article ≠ []
    ∧ Forall (λ c, is_space c = false) article.
Proof.
  apply (conservation_status_shape (H := sample_inflect)
           {| ConservationStatus.display_name := lit "S3";
              ConservationStatus.authority := lit "NatureServe";
              ConservationStatus.url := Some (lit "u") |}).
  vm_compute. reflexivity.
Defined.

Lemma conservation_status_no_digit_witness :
  let status := {|
    ConservationStatus.display_name := lit "endangered";
    ConservationStatus.authority := lit "IUCN";
    ConservationStatus.url := None |} in
  format_taxon_conservation_status (H := sample_inflect) status true true
  = let* word := first (split_ws (ConservationStatus.display_name status)) in
    let* article :=
      first (split_ws (a (Inflect := sample_inflect) word)) in
    Ok (article ++ lit " "
        ++ format_link (ConservationStatus.display_name status)
             (ConservationStatus.url status)).
Proof.
  apply (conservation_status_no_digit (H := sample_inflect)).
  by repeat constructor.
Defined.

(** ** Thousands grouping and the observation count *)

Lemma filter_rev {A} (P : A → Prop) `{∀ x, Decision (P x)} (l : list A) :
  filter P (rev l) = rev (filter P l).
Proof.
  induction l as [|x l IH]; [done|]. cbn [rev].
  rewrite filter_app, IH.
  destruct (decide (P x)).
  - by rewrite (filter_cons_True P x l), (filter_cons_True P x []).
  - rewrite (filter_cons_False P x l), (filter_cons_False P x []) by done.
    by rewrite filter_nil, app_nil_r.
Qed.

Lemma filter_all {A} (P : A → Prop) `{∀ x, Decision (P x)} (l : list A) :
  Forall P l → filter P l = l.
Proof.
  induction 1 as [|x l Hx _ IH]; [done|].
  by rewrite filter_cons_True, IH.
Qed.

Lemma uint_digits_no_comma d :
  Forall (λ c, c ≠ chr ",") (uint_digits d).
Proof.
  induction d; cbn [uint_digits]; constructor; (done || by vm_compute).
Qed.

Lemma Forall_rev {A} (P : A → Prop) (l : list A) :
  Forall P l → Forall P (rev l).
Proof.
  induction 1 as [|x l Hx _ IH]; [done|]. cbn [rev].
  apply Forall_app. split; [done|]. by repeat constructor.
Qed.

Lemma group3_rev_filter fuel rds :
  Forall (λ c, c ≠ chr ",") rds →
  filter (λ c, c ≠ chr ",") (group3_rev fuel rds) = rds.
Proof.
  revert rds. induction fuel as [|fuel IH]; intros rds Hrds.
  - destruct rds; cbn [group3_rev]; by apply filter_all.
  - destruct rds as [|x [|y [|z [|w rest]]]]; cbn [group3_rev];
      try (by apply filter_all).
    inversion Hrds as [|? ? Hx Hrds1]; subst.
    inversion Hrds1 as [|? ? Hy Hrds2]; subst.
    inversion Hrds2 as [|? ? Hz Hrds3]; subst.
    rewrite !filter_cons_True by done.
    rewrite filter_cons_False by (intros Hne; by apply Hne).
    by rewrite IH.
Qed.

(** X16: taking the commas out of [f"{n:,}"] gives back [f"{n}"]. *)
Theorem str_of_int_grouped_digits n :
  filter (λ c, c ≠ chr ",") (str_of_int_grouped n) = str_of_int n.
Proof.
  unfold str_of_int_grouped, str_of_int, nat_digits.
  pose proof (uint_digits_no_comma (N.to_uint (Z.abs_N n))) as Hdigits.
  assert (Hgrouped :
    filter (λ c, c ≠ chr ",")
      (rev (group3_rev (length (uint_digits (N.to_uint (Z.abs_N n))))
              (rev (uint_digits (N.to_uint (Z.abs_N n))))))
    = uint_digits (N.to_uint (Z.abs_N n))).
  { rewrite filter_rev, group3_rev_filter by (by apply Forall_rev).
    apply rev_involutive. }
  destruct (n <? 0); [|done].
  rewrite filter_cons_True by (by vm_compute). by rewrite Hgrouped.
Qed.

Lemma group3_rev_commas fuel rds i c :
  (length rds ≤ fuel)%nat →
  Forall (λ c, c ≠ chr ",") rds →
  group3_rev fuel rds !! i = Some c →
  c = chr "," ↔ ∃ k, i = (4 * k + 3)%nat.
Proof.
  revert rds i. induction fuel as [|fuel IH]; intros rds i Hfuel Hrds.
  - destruct rds; [|cbn in Hfuel; lia]. done.
  - destruct rds as [|x [|y [|z [|w rest]]]]; cbn [group3_rev].
    1-4: intros Hi; split;
      [intros ->; rewrite Forall_forall in Hrds;
       by destruct (Hrds _ (list_elem_of_lookup_2 _ _ _ Hi))
      |intros [k ->]; apply lookup_lt_Some in Hi; cbn in Hi; lia].
    inversion Hrds as [|? ? Hx Hrds1]; subst.
    inversion Hrds1 as [|? ? Hy Hrds2]; subst.
    inversion Hrds2 as [|? ? Hz Hrds3]; subst.
    destruct i as [|[|[|[|i]]]]; cbn [lookup list_lookup].
    + intros [= <-]. split; [done|intros [k ?]; lia].
    + intros [= <-]. split; [done|intros [k ?]; lia].
    + intros [= <-]. split; [done|intros [k ?]; lia].
    + intros [= <-]. split; [by exists 0%nat|done].
    + intros Hi.
      destruct (IH (w :: rest) i ltac:(cbn in *; lia) Hrds3 Hi)
        as [Hcomma Hfourth].
      split.
      * intros [k ->]%Hcomma. exists (S k). lia.
      * intros [k Hk]. apply Hfourth. exists (k - 1)%nat. lia.
Qed.

(** X17: in [f"{n:,}"] for [n ≥ 0], counted from the right and from 0,
    every fourth character is a comma and no other is: the digits stand in
    groups of three. *)
Theorem str_of_int_grouped_commas n i c :
  0 ≤ n →
  rev (str_of_int_grouped n) !! i = Some c →
  c = chr "," ↔ ∃ k, i = (4 * k + 3)%nat.
Proof.
  intros Hn. unfold str_of_int_grouped.
  rewrite (proj2 (Z.ltb_ge n 0)) by done. rewrite rev_involutive.
  apply group3_rev_commas.
  - by rewrite length_rev.
  - apply Forall_rev, uint_digits_no_comma.
Qed.

Lemma str_of_int_grouped_commas_witness :
  chr "," = chr "," ↔ ∃ k, 3%nat = (4 * k + 3)%nat.
Proof.
  apply (str_of_int_grouped_commas 1234567 3 (chr ",")).
  - lia.
  - vm_compute. reflexivity.
Defined.

Section obs_count_more.
Context `{Constants} `{Inflect}.

(** X15: the noun after the count is always the plural that [inflect]
    forms, for a count of 1 too: what [p.plural] is given as the count is
    the Markdown link, which is none of the words it reads as one. *)
Theorem description_always_plural (taxon : Taxon.t) :
  ObsCountFormatter.description taxon
  = lit "[" ++ str_of_int_grouped (Taxon.observations_count taxon)
    ++ lit "](" ++ WWW_BASE_URL ++ lit "/observations?taxon_id="
    ++ str_of_int (Taxon.id taxon) ++ lit ") "
    ++ plural_noun (lit "observation").
Proof.
  rewrite description_plural, link_text. unfold ObsCountFormatter.url.
  by rewrite <- !(assoc_L (++)).
Qed.
End obs_count_more.

(** ** [format_taxon_establishment_means] *)

(** The labels with a description are those with a glyph. *)
Lemma means_label_emoji label description :
  MEANS_LABEL_DESC !! label = Some description →
  ∃ glyph, MEANS_LABEL_EMOJI !! label = Some glyph.
Proof.
  intros Hin%elem_of_list_to_map_2.
  repeat (apply elem_of_cons in Hin as [[= -> ->]|Hin];
          [eexists; vm_compute; reflexivity|]).
  by apply elem_of_nil in Hin.
Qed.

Lemma means_label_no_emoji label :
  MEANS_LABEL_DESC !! label = None → MEANS_LABEL_EMOJI !! label = None.
Proof.
  intros Hnone.
  destruct (MEANS_LABEL_EMOJI !! label) as [glyph|] eqn:Hglyph; [|done].
  apply elem_of_list_to_map_2 in Hglyph.
  repeat (apply elem_of_cons in Hglyph as [[= -> ->]|Hglyph];
          [by vm_compute in Hnone|]).
  by apply elem_of_nil in Hglyph.
Qed.

Section establishment_means_properties.
Context `{Constants}.
Variable means : Means.t.

(** X18: the result is [None] exactly for a label other than endemic,
    native and introduced when [all_means] is not set; such means are
    dropped whether they have a place or not. *)
Theorem establishment_means_none (all_means list_title : bool) :
  format_taxon_establishment_means means all_means list_title = Ok None
  ↔ MEANS_LABEL_DESC !! Means.establishment_means means = None
    ∧ all_means = false.
Proof.
  unfold format_taxon_establishment_means, place_display_name.
  destruct (MEANS_LABEL_DESC !! _) as [description|], all_means,
    (Means.place means); cbn [negb bind]; intuition congruence.
Qed.

(** X19: without a list title asked for, the text is one link to the
    listed taxon, whose URL is never empty. For the three known labels its
    text is the phrase for the label and the place, and a glyph with a
    narrow space stands before the link; for another label, with
    [all_means], the text is the generic phrase and there is no glyph. *)
Theorem establishment_means_shown (all_means : bool) place :
  Means.place means = Some place →
  let url :=
    WWW_BASE_URL ++ lit "/listed_taxa/" ++ str_of_int (Means.id means) in
  match MEANS_LABEL_DESC !! Means.establishment_means means with
  | Some description =>
      ∃ glyph,
        MEANS_LABEL_EMOJI !! Means.establishment_means means = Some glyph
        ∧ format_taxon_establishment_means means all_means false
          = Ok (Some (glyph ++ [8239%N] ++ lit "[" ++ description ++ lit " "
                      ++ Place.display_name place ++ lit "](" ++ url
                      ++ lit ")"))
  | None =>
      format_taxon_establishment_means means true false
      = Ok (Some (lit "[Establishment means "
                  ++ Means.establishment_means means ++ lit " in "
                  ++ Place.display_name place ++ lit "](" ++ url
                  ++ lit ")"))
  end.
Proof.
  intros Hplace url.
  assert (Hlink : ∀ text, format_link text (Some url)
                          = lit "[" ++ text ++ lit "](" ++ url ++ lit ")").
  { intros text. unfold format_link, url. by destruct WWW_BASE_URL. }
  unfold format_taxon_establishment_means, place_display_name, linked_means.
  rewrite Hplace.
  destruct (MEANS_LABEL_DESC !! _) as [description|] eqn:Hlabel.
  - destruct (means_label_emoji _ _ Hlabel) as [glyph Hglyph].
    exists glyph. split; [done|]. rewrite Hglyph. cbn [bind andb].
    fold url. rewrite Hlink. by rewrite <- !(assoc_L (++)).
  - rewrite (means_label_no_emoji _ Hlabel). cbn [bind andb negb].
    fold url. rewrite Hlink. by rewrite <- !(assoc_L (++)).
Qed.

(** X20: the only exception is [AttributeError], raised exactly when
    means that are to be shown have no place. *)
Theorem establishment_means_raises (all_means list_title : bool) e :
  format_taxon_establishment_means means all_means list_title = Raise e
  ↔ e = AttributeError
    ∧ Means.place means = None
    ∧ (is_Some (MEANS_LABEL_DESC !! Means.establishment_means means)
       ∨ all_means = true).
Proof.
  unfold format_taxon_establishment_means, place_display_name.
  destruct (MEANS_LABEL_DESC !! _) as [description|], all_means,
    (Means.place means); cbn [negb bind]; split;
    try (intros Hraise; discriminate Hraise);
    try (intros [= <-]; split_and!; by eauto);
    intros (-> & Hplace & Hshown); try discriminate Hplace; try done.
  destruct Hshown as [[description [=]]|[=]].
Qed.
End establishment_means_properties.

Lemma establishment_means_shown_witness :
  let canada := {| Place.id := 6712; Place.display_name := lit "Canada" |} in
  let means := {|
    Means.id := 7; Means.establishment_means := lit "native";
    Means.place := Some canada; Means.is_listed_taxon := true;
    Means.list_title := None |} in
  let url :=
    WWW_BASE_URL (Constants := sample_constants) ++ lit "/listed_taxa/"
    ++ str_of_int (Means.id means) in
  match MEANS_LABEL_DESC !! Means.establishment_means means with
  | Some description =>
      ∃ glyph,
        MEANS_LABEL_EMOJI !! Means.establishment_means means = Some glyph
        ∧ format_taxon_establishment_means (H := sample_constants) means
            false false
          = Ok (Some (glyph ++ [8239%N] ++ lit "[" ++ description ++ lit " "
                      ++ Place.display_name canada ++ lit "](" ++ url
                      ++ lit ")"))
  | None =>
      format_taxon_establishment_means (H := sample_constants) means true
        false
      = Ok (Some (lit "[Establishment means "
                  ++ Means.establishment_means means ++ lit " in "
                  ++ Place.display_name canada ++ lit "](" ++ url
                  ++ lit ")"))
  end.
Proof.
  intros canada means.
  apply (establishment_means_shown (H := sample_constants) means false canada).
  reflexivity.
Defined.

Example establishment_means_native :
  format_taxon_establishment_means (H := sample_constants)
    {| Means.id := 7; Means.establishment_means := lit "native";
       Means.place :=
         Some {| Place.id := 6712; Place.display_name := lit "Canada" |};
       Means.is_listed_taxon := true;
       Means.list_title := Some (lit "Check List") |} false true
  = Ok (Some ([129001%N; 8239%N] ++ lit "native in Canada "
              ++ lit "[Check List]"
              ++ lit "(https://www.inaturalist.org/listed_taxa/7)")).
Proof. vm_compute. reflexivity. Qed.

(** ** [_full_means] *)

Lemma filter_first {A} (P : A → Prop) `{∀ x, Decision (P x)} l x rest :
  filter P l = x :: rest →
  ∃ earlier later,
    l = earlier ++ x :: later ∧ P x ∧ Forall (λ y, ¬ P y) earlier.
Proof.
  induction l as [|y l IH]; [done|].
  destruct (decide (P y)) as [Hy|Hy].
  - rewrite filter_cons_True by done. intros [= -> _].
    by exists [], l.
  - rewrite filter_cons_False by done.
    intros (earlier & later & -> & Hx & Hearlier)%IH.
    exists (y :: earlier), later. split_and!; [done|done|by constructor].
Qed.

Lemma filter_nil_none {A} (P : A → Prop) `{∀ x, Decision (P x)} l :
  filter P l = [] → Forall (λ y, ¬ P y) l.
Proof.
  induction l as [|y l IH]; [done|].
  destruct (decide (P y)).
  - by rewrite filter_cons_True.
  - rewrite filter_cons_False by done. intros ?%IH. by constructor.
Qed.

Section full_means_properties.
Variable more : TaxonMore.t.

(** X21: the listed taxon returned is the first one of [listed_taxa] whose
    place has the id of the place of the establishment means. *)
Theorem full_means_first found :
  _full_means more = Return (Some found) →
  ∃ means place earlier later,
    TaxonMore.establishment_means more = Some means
    ∧ Means.place means = Some place
    ∧ TaxonMore.listed_taxa more = earlier ++ found :: later
    ∧ listed_for place found = true
    ∧ Forall (λ listed_taxon, listed_for place listed_taxon = false) earlier.
Proof.
  unfold _full_means.
  destruct (TaxonMore.establishment_means more) as [means|]; [|done].
  destruct (Means.place means) as [place|] eqn:Hplace; [|done].
  destruct (TaxonMore.listed_taxa more) as [|first_taxon others] eqn:Hlisted;
    [done|].
  destruct (filter _ _) as [|first_found others_found] eqn:Hfilter; [done|].
  intros [= <-].
  apply filter_first in Hfilter as (earlier & later & Hsplit & Hfound & Hnot).
  exists means, place, earlier, later. split_and!; [done..|].
  eapply Forall_impl; [done|]. intros listed_taxon. cbv beta.
  by destruct (listed_for place listed_taxon).
Qed.

(** No listed taxon for the place: [next] finds the generator exhausted. *)
Lemma full_means_no_match means place :
  TaxonMore.establishment_means more = Some means →
  Means.place means = Some place →
  TaxonMore.listed_taxa more ≠ [] →
  Forall (λ listed_taxon, listed_for place listed_taxon = false)
    (TaxonMore.listed_taxa more) →
  _full_means more = Throw StopIteration.
Proof.
  intros Hmeans Hplace Hsome Hnone. unfold _full_means.
  rewrite Hmeans, Hplace.
  destruct (TaxonMore.listed_taxa more) as [|first_taxon others]; [done|].
  rewrite filter_none; [done|].
  eapply Forall_impl; [done|]. intros listed_taxon. cbv beta.
  by intros ->.
Qed.

(** X22: the only exception is [StopIteration], raised exactly when the
    establishment means have a place, there are listed taxa, and none of
    them is for that place. *)
Theorem full_means_stop_iteration e :
  _full_means more = Throw e ↔
  e = StopIteration
  ∧ ∃ means place,
      TaxonMore.establishment_means more = Some means
      ∧ Means.place means = Some place
      ∧ TaxonMore.listed_taxa more ≠ []
      ∧ Forall (λ listed_taxon, listed_for place listed_taxon = false)
          (TaxonMore.listed_taxa more).
Proof.
  split.
  - unfold _full_means.
    destruct (TaxonMore.establishment_means more) as [means|]; [|done].
    destruct (Means.place means) as [place|] eqn:Hplace; [|done].
    destruct (TaxonMore.listed_taxa more) as [|first_taxon others]
      eqn:Hlisted; [done|].
    destruct (filter _ _) as [|first_found others_found] eqn:Hfilter;
      [|done].
    intros [= <-]. split; [done|]. exists means, place.
    split_and!; [done..|].
    apply filter_nil_none in Hfilter.
    eapply Forall_impl; [done|]. intros listed_taxon. cbv beta.
    by destruct (listed_for place listed_taxon).
  - intros (-> & means & place & Hmeans & Hplace & Hsome & Hnone).
    by apply (full_means_no_match means place).
Qed.
End full_means_properties.

Lemma full_means_first_witness :
  let canada := {| Place.id := 6712; Place.display_name := lit "Canada" |} in
  let peru := {| Place.id := 7513; Place.display_name := lit "Peru" |} in
  let listed (place : Place.t) (label : string) := {|
    Means.id := Place.id place; Means.establishment_means := lit label;
    Means.place := Some place; Means.is_listed_taxon := true;
    Means.list_title := None |} in
  let more := {|
    TaxonMore.url := None; TaxonMore.conservation_status := None;
    TaxonMore.establishment_means := Some (listed canada "native"%string);
    TaxonMore.listed_taxa :=
      [listed peru "introduced"%string; listed canada "endemic"%string];
    TaxonMore.ancestors := [] |} in
  ∃ means place earlier later,
    TaxonMore.establishment_means more = Some means
    ∧ Means.place means = Some place
    ∧ TaxonMore.listed_taxa more
      = earlier ++ listed canada "endemic"%string :: later
    ∧ listed_for place (listed canada "endemic"%string) = true
    ∧ Forall (λ listed_taxon, listed_for place listed_taxon = false) earlier.
Proof.
  intros canada peru listed more.
  apply (full_means_first more). vm_compute. reflexivity.
Defined.

(** ** [TaxonFormatter] *)

(** The names of a hierarchy, cut to [max_len]. *)
Lemma hierarchy_names_bound `{Constants} taxa max_len names :
  format_taxon_names taxa false (lit "%s") max_len true None = Ok names →
  taxa ≠ [] → max_len ≠ 0 →
  len names ≤ max_len.
Proof.
  intros Hnames Htaxa Hmax. revert Hnames. unfold format_taxon_names.
  destruct (formatted_names taxa false true None) as [all|e] eqn:Hall;
    cbn [bind]; [|done].
  rewrite (proj2 (Z.eqb_neq max_len 0)) by done. unfold fit_names.
  destruct (fit_from _ _ _ all all []) as [fitted|e] eqn:Hfit;
    cbn [bind]; [|done].
  rewrite (percent_one [] []) by apply not_elem_of_nil.
  rewrite app_nil_r. intros [= <-].
  destruct (fit_from_sound _ _ _ _ _ _ _ (or_introl eq_refl) Hfit)
    as [->|Hlen].
  - apply fit_from_nil in Hfit. cbn [app] in Hfit. subst all.
    apply comprehension_length in Hall. by destruct taxa.
  - unfold available_len in Hlen. change (len (lit "%s")) with 2 in Hlen.
    lia.
Qed.

Section taxon_formatter_properties.
Context `{Constants} `{Inflect}.
Variable self : TaxonFormatter.t.

(** X23: [format] raises [StopIteration] for a taxon whose establishment
    means have a place when there are listed taxa and none of them is for
    that place: the exception of [_full_means] is not caught on the way. *)
Theorem format_stop_iteration title status_rank means place with_ancestors :
  TaxonFormatter.format_title self = Ok title →
  TaxonFormatter.format_taxon_status_rank self = Ok status_rank →
  TaxonMore.establishment_means (TaxonFormatter.taxon_more self)
  = Some means →
  Means.place means = Some place →
  TaxonMore.listed_taxa (TaxonFormatter.taxon_more self) ≠ [] →
  Forall (λ listed_taxon, listed_for place listed_taxon = false)
    (TaxonMore.listed_taxa (TaxonFormatter.taxon_more self)) →
  TaxonFormatter.format self with_ancestors = Throw StopIteration.
Proof.
  intros Htitle Hrank Hmeans Hplace Hsome Hnone.
  unfold TaxonFormatter.format, TaxonFormatter.format_taxon_description.
  rewrite Htitle, Hrank, Hmeans. cbn [outcome_of and_then].
  by rewrite (full_means_no_match _ means place).
Qed.

(** X24: establishment means with a label other than endemic, native and
    introduced add nothing to the description (here without listed taxa):
    it reads as for a taxon without establishment means. *)
Theorem format_taxon_description_other_means status_rank means :
  TaxonFormatter.format_taxon_status_rank self = Ok status_rank →
  TaxonMore.establishment_means (TaxonFormatter.taxon_more self)
  = Some means →
  TaxonMore.listed_taxa (TaxonFormatter.taxon_more self) = [] →
  MEANS_LABEL_DESC !! Means.establishment_means means = None →
  TaxonFormatter.format_taxon_description self
  = Return (lit "is " ++ status_rank ++ lit " with "
            ++ ObsCountFormatter.description
                 (TaxonFormatter.taxon self)).
Proof.
  intros Hrank Hmeans Hlisted Hlabel.
  unfold TaxonFormatter.format_taxon_description, _full_means.
  rewrite Hrank, Hmeans, Hlisted. cbn [outcome_of and_then].
  destruct (Means.place means); cbn [and_then default from_option id];
    unfold format_taxon_establishment_means; by rewrite Hlabel.
Qed.

(** X25: with ancestors and a [max_len] other than 0, what [format]
    returns is the title, the newline, the description, " in: " and the
    names of the ancestors, and these names are at most [max_len] long:
    [max_len] bounds the names, not the whole text. *)
Theorem format_ancestors_within_max_len out :
  TaxonFormatter.format self true = Return out →
  TaxonMore.ancestors (TaxonFormatter.taxon_more self) ≠ [] →
  TaxonFormatter.max_len self ≠ 0 →
  ∃ title description names,
    TaxonFormatter.format_title self = Ok title
    ∧ TaxonFormatter.format_taxon_description self = Return description
    ∧ out = title ++ TaxonFormatter.newline self ++ description
            ++ lit " in: " ++ names
    ∧ len names ≤ TaxonFormatter.max_len self.
Proof.
  intros Hout Hancestors Hmax. revert Hout. unfold TaxonFormatter.format.
  destruct (TaxonFormatter.format_title self) as [title|e];
    cbn [outcome_of and_then]; [|done].
  destruct (TaxonFormatter.format_taxon_description self)
    as [description|e]; cbn [and_then]; [|done].
  rewrite (bool_decide_eq_true_2 _ Hancestors). cbn [andb].
  destruct (format_taxon_names _ _ _ _ _ _) as [names|e] eqn:Hnames;
    cbn [outcome_of and_then]; [|done].
  intros [= <-]. exists title, description, names.
  split_and!; [done|done|by rewrite <- !(assoc_L (++))|].
  by apply (hierarchy_names_bound _ _ _ Hnames).
Qed.

(** X26: the title is the formatted name, linked when asked for and the
    taxon has a URL, followed by nothing or by the matched term in
    parentheses, as it is or struck through: the link never covers the
    matched term. *)
Theorem format_title_shape out :
  TaxonFormatter.format_title self = Ok out →
  ∃ name,
    format_taxon_name (TaxonFormatter.taxon self) false false true true
      (TaxonFormatter.lang self)
    = Ok name
    ∧ let linked :=
        if TaxonFormatter.with_url self
           && opt_truthy (TaxonMore.url (TaxonFormatter.taxon_more self))
        then format_link name
               (TaxonMore.url (TaxonFormatter.taxon_more self))
        else name in
      let matched :=
        default []
          (if opt_truthy (TaxonFormatter.matched_term self)
           then TaxonFormatter.matched_term self
           else Taxon.matched_term (TaxonFormatter.taxon self)) in
      out = linked
      ∨ out = linked ++ lit " (" ++ matched ++ lit ")"
      ∨ out = linked ++ lit " (~~" ++ matched ++ lit "~~)".
Proof.
  unfold TaxonFormatter.format_title.
  destruct (format_taxon_name _ _ _ _ _ _) as [name|e]; cbn [bind]; [|done].
  intros Hout. exists name. split; [done|]. cbv zeta. revert Hout.
  destruct (bool_decide (_ ∉ _)); [|intros [= <-]; by left].
  destruct (if bool_decide _ then _ else _) as [invalid|e]; cbn [bind];
    [|done].
  destruct (bool_decide (_ ∈ invalid)); intros [= <-].
  - right. right. by rewrite <- !(assoc_L (++)).
  - right. by left.
Qed.
End taxon_formatter_properties.

Lemma format_stop_iteration_witness :
  let canada := sample_place 6712 "Canada" in
  let peru := sample_place 7513 "Peru" in
  TaxonFormatter.format (H := sample_constants) (H0 := sample_inflect)
    (sample_formatter (Some (sample_means canada "native"))
       [sample_means peru "introduced"] [] None 0)
    true
  = Throw StopIteration.
Proof.
  intros canada peru.
  eapply (format_stop_iteration (H := sample_constants)
            (H0 := sample_inflect) _ _ _ (sample_means canada "native")
            canada).
  - vm_compute. reflexivity.
  - vm_compute. reflexivity.
  - reflexivity.
  - reflexivity.
  - discriminate.
  - repeat constructor.
Defined.

Lemma format_taxon_description_other_means_witness :
  let self :=
    sample_formatter
      (Some (sample_means (sample_place 6712 "Canada") "unknown")) [] []
      None 0 in
  TaxonFormatter.format_taxon_description (H := sample_constants)
    (H0 := sample_inflect) self
  = Return (lit "is " ++ lit "a genus" ++ lit " with "
            ++ ObsCountFormatter.description (H := sample_constants)
                 (H0 := sample_inflect) (TaxonFormatter.taxon self)).
Proof.
  intros self.
  apply (format_taxon_description_other_means (H := sample_constants)
           (H0 := sample_inflect) self (lit "a genus")
           (sample_means (sample_place 6712 "Canada") "unknown")).
  - vm_compute. reflexivity.
  - reflexivity.
  - reflexivity.
  - vm_compute. reflexivity.
Defined.

Lemma format_ancestors_within_max_len_witness :
  let self :=
    sample_formatter None []
      [sample_taxon "Plantae" "kingdom" true;
       sample_taxon "Tracheophyta" "phylum" true;
       sample_taxon "Asteraceae" "family" true]
      None 40 in
  ∃ title description names,
    TaxonFormatter.format_title (H := sample_constants) self = Ok title
    ∧ TaxonFormatter.format_taxon_description (H := sample_constants)
        (H0 := sample_inflect) self
      = Return description
    ∧ lit "[Genus *Taraxacum*](https://www.inaturalist.org/taxa/47602)"
      ++ [10%N]
      ++ lit "is a genus with [1,234](https://www.inaturalist.org/"
      ++ lit "observations?taxon_id=1) observations in: "
      ++ [10%N] ++ lit "> **Plantae** > and 2 more"
      = title ++ TaxonFormatter.newline self ++ description ++ lit " in: "
        ++ names
    ∧ len names ≤ TaxonFormatter.max_len self.
Proof.
  intros self.
  apply (format_ancestors_within_max_len (H := sample_constants)
           (H0 := sample_inflect) self).
  - vm_compute. reflexivity.
  - discriminate.
  - discriminate.
Defined.

Lemma format_title_shape_witness :
  let self :=
    sample_formatter None [] [] (Some (lit "pissenlit")) 0 in
  ∃ name,
    format_taxon_name (H := sample_constants) (TaxonFormatter.taxon self)
      false false true true (TaxonFormatter.lang self)
    = Ok name
    ∧ let linked :=
        if TaxonFormatter.with_url self
           && opt_truthy (TaxonMore.url (TaxonFormatter.taxon_more self))
        then format_link name
               (TaxonMore.url (TaxonFormatter.taxon_more self))
        else name in
      let matched :=
        default []
          (if opt_truthy (TaxonFormatter.matched_term self)
           then TaxonFormatter.matched_term self
           else Taxon.matched_term (TaxonFormatter.taxon self)) in
      lit "[Genus *Taraxacum*](https://www.inaturalist.org/taxa/47602)"
      ++ lit " (pissenlit)"
      = linked
      ∨ lit "[Genus *Taraxacum*](https://www.inaturalist.org/taxa/47602)"
        ++ lit " (pissenlit)"
        = linked ++ lit " (" ++ matched ++ lit ")"
      ∨ lit "[Genus *Taraxacum*](https://www.inaturalist.org/taxa/47602)"
        ++ lit " (pissenlit)"
        = linked ++ lit " (~~" ++ matched ++ lit "~~)".
Proof.
  intros self.
  apply (format_title_shape (H := sample_constants) self).
  vm_compute. reflexivity.
Defined.
